(** * Prescription analysis: extraction and dosage assessment

    A shallow embedding of [backend/main.py]: the text parser
    [parse_prescription_text] and the analysis loop of
    [analyze_prescription], together with the parts of the Python runtime
    they rest on ([str.split], [str.strip], [str.capitalize], [str.lower],
    the backtracking matcher of [re] with [re.findall] and [re.search],
    [float], float multiplication and the ['.1f'] format).

    [analyze_prescription] below starts from the extension of the file and
    the text obtained from it, and is the ["analysis"] field of the
    response; the route around it is [handle], in which the reading of the
    upload, the UTF-8 codec, the image library and the model that reads an
    image are parameters.

    Text is a [string] of Rocq's [ascii] characters, the code points 0 to
    255.  The character classes and [str.lower] follow Python on all of
    them.  [str.capitalize] does so but for a first character [µ] or [ÿ],
    whose upper-case forms are code points above 255: the theorems on the
    names of the medicines are stated for ASCII text.

    Floats are the binary64 numbers of the Standard Library's [SpecFloat]
    ([prec = 53], [emax = 1024]).

    The parser and the analysis are given twice: as functions of their
    arguments, on which most properties are stated, and with the lists they
    build as objects of a store that is passed from call to call, on which
    the independence of a call from the calls before it is stated.  The two
    are proved to agree. *)

From Stdlib Require Import ZArith List String Ascii Bool Arith Lia.
From Stdlib Require Import SpecFloat DecimalString.
Import ListNotations.

Local Open Scope list_scope.
Local Open Scope string_scope.

(** ** Characters and the string methods of the source *)

Module Py.

Definition code (c : ascii) : nat := nat_of_ascii c.

Definition between (lo hi : nat) (c : ascii) : bool :=
  ((lo <=? code c) && (code c <=? hi))%nat.

(** [\d]: the decimal digits; no other character below 256 is one. *)
Definition is_digit (c : ascii) : bool := between 48 57 c.

(** The upper-case letters: A-Z, and À-Þ without the sign × (215). *)
Definition is_upper (c : ascii) : bool :=
  between 65 90 c || (between 192 222 c && negb (code c =? 215)%nat).

(** The letters with an upper-case form below 256: a-z, and à-þ without
    the sign ÷ (247). *)
Definition is_lower (c : ascii) : bool :=
  between 97 122 c || (between 224 254 c && negb (code c =? 247)%nat).

(** [\w]: letters, digits and the underscore; above 127 the letters ª, µ,
    º, À-Ö, Ø-ö and ø-ÿ and the numerics ², ³, ¹, ¼, ½ and ¾. *)
Definition is_word (c : ascii) : bool :=
  between 48 57 c || between 65 90 c || (code c =? 95)%nat
  || between 97 122 c
  || (code c =? 170)%nat || between 178 179 c || (code c =? 181)%nat
  || between 185 186 c || between 188 190 c
  || between 192 214 c || between 216 246 c || between 248 255 c.

(** [\s], and the characters [str.strip()] removes: tab, line feed,
    vertical tab, form feed, carriage return, the separators 0x1c..0x1f,
    the space, the next-line control (0x85) and the no-break space
    (0xa0). *)
Definition is_space (c : ascii) : bool :=
  between 9 13 c || between 28 31 c || (code c =? 32)%nat
  || (code c =? 133)%nat || (code c =? 160)%nat.

(** The lower-case form of a character. *)
Definition lower_char (c : ascii) : ascii :=
  if is_upper c then ascii_of_nat (code c + 32) else c.

(** The upper-case form of a character, where it is one character below
    256; ß, µ and ÿ have none and are left as they are. *)
Definition upper_char (c : ascii) : ascii :=
  if is_lower c then ascii_of_nat (code c - 32) else c.

(** The code points of ASCII. *)
Definition is_ascii_char (c : ascii) : bool := (code c <? 128)%nat.

Fixpoint map_string (f : ascii -> ascii) (s : string) : string :=
  match s with
  | EmptyString => EmptyString
  | String c t => String (f c) (map_string f t)
  end.

(** [s.lower()] *)
Definition lower (s : string) : string := map_string lower_char s.

(** [s.capitalize()]: the first character in title case, all the others in
    lower case.  The title case of ß (223) is the two characters [Ss];
    that of µ and ÿ is above 255, and the model leaves them. *)
Definition capitalize (s : string) : string :=
  match s with
  | EmptyString => EmptyString
  | String c t =>
      if (code c =? 223)%nat then String "S" (String "s" (lower t))
      else String (upper_char c) (lower t)
  end.

(** The text has ASCII characters only. *)
Fixpoint is_ascii (s : string) : bool :=
  match s with
  | EmptyString => true
  | String c t => is_ascii_char c && is_ascii t
  end.

Fixpoint lstrip (s : string) : string :=
  match s with
  | EmptyString => EmptyString
  | String c t => if is_space c then lstrip t else s
  end.

(** Removes trailing white space; [String c t] survives when something of
    [t] does or [c] itself is not white space. *)
Fixpoint rstrip (s : string) : string :=
  match s with
  | EmptyString => EmptyString
  | String c t =>
      match rstrip t with
      | EmptyString => if is_space c then EmptyString else String c EmptyString
      | t' => String c t'
      end
  end.

(** [s.strip()] *)
Definition strip (s : string) : string := rstrip (lstrip s).

(** [s.split(sep)] for a one-character separator: the pieces between the
    separators, empty pieces included; never the empty list. *)
Fixpoint split (sep : ascii) (s : string) : list string :=
  match s with
  | EmptyString => [EmptyString]
  | String c t =>
      if Ascii.eqb c sep then EmptyString :: split sep t
      else match split sep t with
           | [] => [String c EmptyString]
           | piece :: pieces => String c piece :: pieces
           end
  end.

(** [x in xs] for a list of strings *)
Definition mem (x : string) (xs : list string) : bool :=
  existsb (String.eqb x) xs.

(** [c in s] for a character [c] *)
Fixpoint contains (c : ascii) (s : string) : bool :=
  match s with
  | EmptyString => false
  | String x t => Ascii.eqb x c || contains c t
  end.

End Py.

(** ** The regular expressions of [re] and their backtracking matcher *)

Module Re.

Inductive regex : Type :=
| Eps                                  (* the empty pattern *)
| Lit (c : ascii)                      (* one literal character *)
| Class (p : ascii -> bool)            (* a character class: \w \s \d *)
| Cat (r1 r2 : regex)                  (* r1 r2 *)
| Alt (r1 r2 : regex)                  (* r1|r2, the left branch first *)
| Opt (r : regex)                      (* r?  greedy *)
| Star (r : regex)                     (* r*  greedy *)
| Group (n : nat) (r : regex).         (* the n-th capturing group *)

(** [r+] is [r r*]. *)
Definition Plus (r : regex) : regex := Cat r (Star r).

(** The literal text [s], character by character. *)
Fixpoint Str (s : string) : regex :=
  match s with
  | EmptyString => Eps
  | String c EmptyString => Lit c
  | String c t => Cat (Lit c) (Str t)
  end.

(** Number of capturing groups. *)
Fixpoint ngroups (r : regex) : nat :=
  match r with
  | Eps | Lit _ | Class _ => 0
  | Cat r1 r2 | Alt r1 r2 => Nat.max (ngroups r1) (ngroups r2)
  | Opt r | Star r => ngroups r
  | Group n r => Nat.max n (ngroups r)
  end.

(** The captures made so far, the latest first. *)
Definition captures : Type := list (nat * string).

(** A match in progress: the text still to be read and the captures. *)
Definition cont : Type := string -> captures -> option (string * captures).

(** The text consumed between the suffix [s] and its own suffix [s']. *)
Definition consumed (s s' : string) : string :=
  substring 0 (String.length s - String.length s') s.

Definition lit_eq (ignorecase : bool) (c x : ascii) : bool :=
  if ignorecase then Ascii.eqb (Py.lower_char x) (Py.lower_char c)
  else Ascii.eqb x c.

(** The loop of a greedy [*]: one more iteration of [body] first, the rest
    of the pattern [k] when that fails.  An iteration that reads nothing is
    refused, so [fuel = length s] iterations are enough. *)
Fixpoint star (body : string -> captures -> cont -> option (string * captures))
  (k : cont) (fuel : nat) (s : string) (cs : captures) {struct fuel}
  : option (string * captures) :=
  match fuel with
  | O => k s cs
  | S fuel' =>
      match body s cs
              (fun s1 cs1 =>
                 if (String.length s1 <? String.length s)%nat
                 then star body k fuel' s1 cs1 else None) with
      | Some res => Some res
      | None => k s cs
      end
  end.

(** The matcher tries the alternatives in the order of [re]: the left
    branch of [|] before the right one, one more iteration of a greedy
    quantifier before leaving it.  [k] is the rest of the pattern; the
    first alternative on which [k] succeeds wins. *)
Fixpoint run (ic : bool) (r : regex) (s : string) (cs : captures) (k : cont)
  {struct r} : option (string * captures) :=
  match r with
  | Eps => k s cs
  | Lit c =>
      match s with
      | String x t => if lit_eq ic c x then k t cs else None
      | EmptyString => None
      end
  | Class p =>
      match s with
      | String x t => if p x then k t cs else None
      | EmptyString => None
      end
  | Cat r1 r2 => run ic r1 s cs (fun s1 cs1 => run ic r2 s1 cs1 k)
  | Alt r1 r2 =>
      match run ic r1 s cs k with
      | Some res => Some res
      | None => run ic r2 s cs k
      end
  | Opt r1 =>
      match run ic r1 s cs k with
      | Some res => Some res
      | None => k s cs
      end
  | Star r1 => star (run ic r1) k (String.length s) s cs
  | Group n r1 =>
      run ic r1 s cs (fun s1 cs1 => k s1 ((n, consumed s s1) :: cs1))
  end.

Definition accept : cont := fun s cs => Some (s, cs).

(** A match of the pattern that starts exactly at [s]. *)
Definition match_at (ic : bool) (r : regex) (s : string)
  : option (string * captures) :=
  run ic r s [] accept.

(** [re.search]: the leftmost position with a match.  The result is the
    suffix where the match starts, the suffix where it ends and its
    captures. *)
Fixpoint search (ic : bool) (r : regex) (s : string)
  : option (string * string * captures) :=
  match match_at ic r s with
  | Some (s', cs) => Some (s, s', cs)
  | None =>
      match s with
      | EmptyString => None
      | String _ t => search ic r t
      end
  end.

Fixpoint lookup (n : nat) (cs : captures) : option string :=
  match cs with
  | [] => None
  | (i, v) :: rest => if Nat.eqb i n then Some v else lookup n rest
  end.

(** [m.group(n)]; a group that took no part in the match reads as the
    empty string, as in the tuples of [re.findall]. *)
Definition group (n : nat) (cs : captures) : string :=
  match lookup n cs with
  | Some v => v
  | None => EmptyString
  end.

(** One item of [re.findall]: the whole match for a pattern without
    groups, else its groups in order (a tuple when there are several, the
    group itself when there is one). *)
Definition item (r : regex) (whole : string) (cs : captures) : list string :=
  match ngroups r with
  | O => [whole]
  | n => map (fun i => group i cs) (seq 1 n)
  end.

(** [re.findall]: the matches from left to right, each search starting where
    the previous match ended.  After an empty match the scan moves one
    character on.  Every round shortens the text, so [fuel] above its
    length never runs out. *)
Fixpoint findall_from (fuel : nat) (ic : bool) (r : regex) (s : string)
  : list (list string) :=
  match fuel with
  | O => []
  | S fuel' =>
      match search ic r s with
      | None => []
      | Some (s0, s1, cs) =>
          item r (consumed s0 s1) cs ::
          (if (String.length s1 <? String.length s0)%nat
           then findall_from fuel' ic r s1
           else match s0 with
                | EmptyString => []
                | String _ t => findall_from fuel' ic r t
                end)
      end
  end.

Definition findall (ic : bool) (r : regex) (s : string) : list (list string) :=
  findall_from (S (String.length s)) ic r s.

End Re.

(** ** Exceptions *)

Inductive exn : Type := ValueError | TypeError | OverflowError.

(** What a Python expression comes to: a value, or an exception raised. *)
Inductive outcome (A : Type) : Type :=
| Return (a : A)
| Raise (e : exn).

Arguments Return {A} a.
Arguments Raise {A} e.

Definition bind {A B : Type} (x : outcome A) (f : A -> outcome B) : outcome B :=
  match x with
  | Return a => f a
  | Raise e => Raise e
  end.

Notation "x <- e1 ;; e2" := (bind e1 (fun x => e2))
  (at level 61, e1 at next level, right associativity).

(** ** Floats: [float(str)], [*] and the ['.1f'] format *)

Module Float.

Local Open Scope Z_scope.

Definition prec : Z := 53.
Definition emax : Z := 1024.

Definition float : Type := spec_float.

(** The float nearest to [p / q] (ties to even) for [0 <= p] and [0 < q]:
    the quotient is computed with its remainder's position, then rounded
    once. *)
Definition of_ratio (p q : Z) : float :=
  match p with
  | Z0 => S754_zero false
  | _ =>
      let '(m, e, l) := SFdiv_core_binary prec emax p 0 q 0 in
      binary_round_aux prec emax false m e l
  end.

(** The float of an integer; exact below 2^53. *)
Definition of_int (z : Z) : float := binary_normalize prec emax z 0 false.

Definition digit_value (c : ascii) : Z := Z.of_nat (Py.code c) - 48.

Fixpoint digits_value (acc : Z) (s : string) : Z :=
  match s with
  | EmptyString => acc
  | String c t => digits_value (10 * acc + digit_value c) t
  end.

Fixpoint all_digits (s : string) : bool :=
  match s with
  | EmptyString => true
  | String c t => Py.is_digit c && all_digits t
  end.

Definition is_digits (s : string) : bool :=
  match s with
  | EmptyString => false
  | _ => all_digits s
  end.

(** The decimal literals [digits] and [digits.digits]: integer part and
    fraction digits. *)
Definition decimal_literal (s : string) : option (string * string) :=
  match Py.split "." s with
  | [i] => if is_digits i then Some (i, EmptyString) else None
  | [i; f] => if is_digits i && is_digits f then Some (i, f) else None
  | _ => None
  end.

(** [float(s)] on the decimal literals [digits] and [digits.digits], which
    are the strings the number pattern of the source captures: the nearest
    float, infinity beyond the largest one.  On any other string the model
    raises [ValueError]; Python accepts some of them (a sign, an exponent,
    surrounding blanks), the source never passes one. *)
Definition py_float (s : string) : outcome float :=
  match decimal_literal s with
  | Some (i, f) =>
      Return (of_ratio (digits_value 0 (i ++ f))
                       (10 ^ Z.of_nat (String.length f)))
  | None => Raise ValueError
  end.

(** [x * y] *)
Definition mul (x y : float) : float := SFmul prec emax x y.

(** The literal [0.9]. *)
Definition f0_9 : float := of_ratio 9 10.

(** A float against an integer.  Python compares the exact values: the
    integer is not rounded to a float first. *)
Definition compare_int (x : float) (n : Z) : option comparison :=
  match x with
  | S754_nan => None
  | S754_infinity s => Some (if s then Lt else Gt)
  | S754_zero _ => Some (0 ?= n)
  | S754_finite s m e =>
      let v := cond_Zopp s (Zpos m) in
      Some (if 0 <=? e then v * 2 ^ e ?= n else v ?= n * 2 ^ (- e))
  end.

(** [x <= n] *)
Definition le_int (x : float) (n : Z) : bool :=
  match compare_int x n with
  | Some (Lt | Eq) => true
  | _ => false
  end.

(** [x > n] *)
Definition gt_int (x : float) (n : Z) : bool :=
  match compare_int x n with
  | Some Gt => true
  | _ => false
  end.

(** The integer nearest to [n / d] for [0 < d], ties to even. *)
Definition round_half_even (n d : Z) : Z :=
  let q := n / d in
  match (2 * (n mod d)) ?= d with
  | Lt => q
  | Gt => q + 1
  | Eq => if Z.even q then q else q + 1
  end.

(** The value [m * 2^e] in tenths, rounded to the nearest integer. *)
Definition tenths (m : positive) (e : Z) : Z :=
  if 0 <=? e then 10 * Zpos m * 2 ^ e
  else round_half_even (10 * Zpos m) (2 ^ (- e)).

Definition decimal (z : Z) : string :=
  NilZero.string_of_uint (N.to_uint (Z.to_N z)).

Definition sign (s : bool) : string := if s then "-" else "".

(** [f"{x:.1f}"]: the exact value of [x] rounded to one decimal (ties to
    even), all the digits of its integer part written out. *)
Definition format_1f (x : float) : string :=
  match x with
  | S754_nan => "nan"
  | S754_infinity s => (sign s ++ "inf")%string
  | S754_zero s => (sign s ++ "0.0")%string
  | S754_finite s m e =>
      let t := tenths m e in
      (sign s ++ decimal (t / 10) ++ "." ++ decimal (t mod 10))%string
  end.

End Float.

(** ** [parse_prescription_text] *)

Import Re.

Definition word : regex := Class Py.is_word.
Definition space : regex := Class Py.is_space.
Definition digit : regex := Class Py.is_digit.

Fixpoint Cats (rs : list regex) : regex :=
  match rs with
  | [] => Eps
  | [r] => r
  | r :: rest => Cat r (Cats rest)
  end.

Fixpoint Alts (rs : list regex) : regex :=
  match rs with
  | [] => Eps
  | [r] => r
  | r :: rest => Alt r (Alts rest)
  end.

(** [\d+(?:\.\d+)?] *)
Definition number_re : regex :=
  Cats [Plus digit; Opt (Cats [Lit "."; Plus digit])].

(** [mg|ml|g|mcg|units?] *)
Definition unit_re : regex :=
  Alts [Str "mg"; Str "ml"; Str "g"; Str "mcg"; Cats [Str "unit"; Opt (Lit "s")]].

(** The three patterns of [medication_patterns], in their order:
    [(\w+)\s+(\d+(?:\.\d+)?\s*(?:mg|ml|g|mcg|units?))],
    [(\w+)\s*:\s*(\d+(?:\.\d+)?\s*(?:mg|ml|g|mcg|units?))] and
    [(\w+)\s+(\d+(?:\.\d+)?)\s*(mg|ml|g|mcg|units?)]. *)
Definition medication_patterns : list regex :=
  [ Cats [Group 1 (Plus word); Plus space;
          Group 2 (Cats [number_re; Star space; unit_re])];
    Cats [Group 1 (Plus word); Star space; Lit ":"; Star space;
          Group 2 (Cats [number_re; Star space; unit_re])];
    Cats [Group 1 (Plus word); Plus space; Group 2 number_re; Star space;
          Group 3 unit_re] ].

(** The two lists the parser appends to. *)
Definition parsed : Type := (list string * list string)%type.

(** The body of [for match in matches]: a pair appends the name and the
    dosage, a triple the name and ["{number} {unit}"]. *)
Definition add_match (acc : parsed) (m : list string) : parsed :=
  let '(medications, dosages) := acc in
  match m with
  | [med_name; dosage] =>
      ((medications ++ [Py.capitalize med_name])%list,
       (dosages ++ [dosage])%list)
  | [med_name; number; unit] =>
      ((medications ++ [Py.capitalize med_name])%list,
       (dosages ++ [(number ++ " " ++ unit)%string])%list)
  | _ => acc
  end.

(** The body of [for pattern in medication_patterns], with
    [re.IGNORECASE]. *)
Definition add_pattern (line : string) (acc : parsed) (pattern : regex)
  : parsed :=
  fold_left add_match (findall true pattern line) acc.

(** The body of [for line in lines]. *)
Definition add_line (acc : parsed) (line : string) : parsed :=
  let line := Py.strip line in
  match line with
  | EmptyString => acc
  | _ => fold_left (add_pattern line) medication_patterns acc
  end.

Definition newline : ascii := ascii_of_nat 10.

Definition parse_prescription_text (text : string) : parsed :=
  let lines := Py.split newline text in
  fold_left add_line lines ([], []).

(** ** The analysis loop of [analyze_prescription] *)

(** One entry of the [analysis] list. *)
Record record : Type := mkRecord {
  medicine : string;
  status : string;
  info : string
}.

Definition Safe : string := "Safe".
Definition ReviewRequired : string := "Review Required".

(** [safe_threshold], from the lower-cased unit. *)
Definition safe_threshold (unit : string) : Z :=
  if Py.mem (Py.lower unit) ["mg"; "g"] then
    (if Py.lower unit =? "mg" then 500%Z else 5%Z)
  else if Py.mem (Py.lower unit) ["ml"] then 50%Z
  else 100%Z.

(** [re.findall(r'(\d+(?:\.\d+)?)', current_dosage)]: one group, so the
    items are strings. *)
Definition dosage_numbers (current_dosage : string) : list string :=
  map (hd EmptyString) (findall false (Group 1 number_re) current_dosage).

(** [re.search(r'(mg|ml|g|mcg|units?)', current_dosage, re.IGNORECASE)]
    followed by [unit.group(1) if unit else "units"]. *)
Definition dosage_unit (current_dosage : string) : string :=
  match search true (Group 1 unit_re) current_dosage with
  | Some (_, _, cs) => group 1 cs
  | None => "units"
  end.

Section Assessor.

(** The builtin [float], which may raise. *)
Variable to_float : string -> outcome Float.float.

(** The body of the [try]: status and info, or the exception raised. *)
Definition try_entry (current_dosage : string) : outcome (string * string) :=
  match dosage_numbers current_dosage with
  | first :: _ =>
      number <- to_float first ;;
      let unit := dosage_unit current_dosage in
      let threshold := safe_threshold unit in
      let status :=
        if Float.le_int number threshold then Safe else ReviewRequired in
      let recommended :=
        if Float.gt_int number threshold
        then Float.format_1f (Float.mul number Float.f0_9) ++ " " ++ unit
        else current_dosage in
      Return (status, "Current: " ++ current_dosage ++ ", Recommended: " ++ recommended)
  | [] =>
      Return (ReviewRequired,
              "Current: " ++ current_dosage ++ ", Unable to parse dosage")
  end.

(** The [try] with its bare [except:], and the record appended. *)
Definition analyze_entry (med current_dosage : string) : record :=
  let '(status, info) :=
    match try_entry current_dosage with
    | Return r => r
    | Raise _ =>
        (ReviewRequired,
         "Current: " ++ current_dosage ++ ", Unable to calculate recommendation")
    end in
  mkRecord med status info.

End Assessor.

(** [dosages[i] if i < len(dosages) else "Unknown"] *)
Definition current_dosage (dosages : list string) (i : nat) : string :=
  if (i <? List.length dosages)%nat then nth i dosages EmptyString
  else "Unknown".

(** [enumerate(xs)] *)
Definition enumerate {A : Type} (xs : list A) : list (nat * A) :=
  combine (seq 0 (List.length xs)) xs.

(** ["text file" if file_extension == "txt" else "image"] *)
Definition file_type (file_extension : string) : string :=
  if file_extension =? "txt" then "text file" else "image".

Definition no_medications (file_extension : string) : record :=
  mkRecord "No medications detected" ReviewRequired
    ("Please ensure the " ++ file_type file_extension
       ++ " contains clear prescription information").

(** The records of the loop over [enumerate(medications)]. *)
Definition analyze_entries (medications dosages : list string) : list record :=
  map (fun '(i, med) =>
         analyze_entry Float.py_float med (current_dosage dosages i))
      (enumerate medications).

(** The ["analysis"] field of the response, from the extension of the
    uploaded file and the text decoded or read from it. *)
Definition analyze_prescription (file_extension output_text : string)
  : list record :=
  let '(medications, dosages) := parse_prescription_text output_text in
  let analysis := analyze_entries medications dosages in
  match analysis with
  | [] => [no_medications file_extension]
  | _ => analysis
  end.

(** ** The lists of the program as objects of a store

    [parse_prescription_text] and the loop of [analyze_prescription] build
    their results in lists that they create ([medications = []],
    [dosages = []], [analysis = []]) and extend with [append].  Here these
    lists are objects of a store, reached through their addresses, and the
    store is passed from one statement to the next and from one call to
    the next: what a call finds in the store and what it leaves there is
    explicit. *)

Module Store.

Inductive object : Type :=
| Strings (items : list string)
| Records (items : list record).

Definition store : Type := list object.
Definition address : Type := nat.

(** A new object, at the next free address. *)
Definition new (o : object) (h : store) : address * store :=
  (List.length h, (h ++ [o])%list).

Fixpoint update (a : address) (o : object) (h : store) : store :=
  match h, a with
  | [], _ => []
  | _ :: rest, O => o :: rest
  | x :: rest, S a' => x :: update a' o rest
  end.

Definition strings (a : address) (h : store) : list string :=
  match nth_error h a with
  | Some (Strings items) => items
  | _ => []
  end.

Definition records (a : address) (h : store) : list record :=
  match nth_error h a with
  | Some (Records items) => items
  | _ => []
  end.

(** [xs.append(x)] on the list at address [a]. *)
Definition append_string (a : address) (x : string) (h : store) : store :=
  update a (Strings (strings a h ++ [x])%list) h.

Definition append_record (a : address) (r : record) (h : store) : store :=
  update a (Records (records a h ++ [r])%list) h.

End Store.

Import Store.

(** The body of [for match in matches], on the two lists of the store. *)
Definition add_match_in (medications dosages : address) (h : store)
  (m : list string) : store :=
  match m with
  | [med_name; dosage] =>
      append_string dosages dosage
        (append_string medications (Py.capitalize med_name) h)
  | [med_name; number; unit] =>
      append_string dosages (number ++ " " ++ unit)
        (append_string medications (Py.capitalize med_name) h)
  | _ => h
  end.

Definition add_pattern_in (medications dosages : address) (line : string)
  (h : store) (pattern : regex) : store :=
  fold_left (add_match_in medications dosages) (findall true pattern line) h.

Definition add_line_in (medications dosages : address) (h : store)
  (line : string) : store :=
  let line := Py.strip line in
  match line with
  | EmptyString => h
  | _ => fold_left (add_pattern_in medications dosages line)
           medication_patterns h
  end.

(** [parse_prescription_text] in a store: it creates its two lists, fills
    them and returns them, that is, their addresses. *)
Definition parse_prescription_text_in (text : string) (h : store)
  : (address * address) * store :=
  let lines := Py.split newline text in
  let '(medications, h) := new (Strings []) h in
  let '(dosages, h) := new (Strings []) h in
  ((medications, dosages),
   fold_left (add_line_in medications dosages) lines h).

(** The body of [for i, med in enumerate(medications)]. *)
Definition add_entry_in (dosages analysis : address) (h : store)
  (entry : nat * string) : store :=
  let '(i, med) := entry in
  append_record analysis
    (analyze_entry Float.py_float med (current_dosage (strings dosages h) i))
    h.

(** The analysis in a store, from the parsing of the text to the list
    [analysis] that the response carries. *)
Definition analyze_prescription_in (file_extension output_text : string)
  (h : store) : address * store :=
  let '((medications, dosages), h) :=
    parse_prescription_text_in output_text h in
  let '(analysis, h) := new (Records []) h in
  let h :=
    fold_left (add_entry_in dosages analysis)
      (enumerate (strings medications h)) h in
  let h :=
    match records analysis h with
    | [] => append_record analysis (no_medications file_extension) h
    | _ => h
    end in
  (analysis, h).

(** The two lists of the parser in a store [h] that grew out of [h0]: they
    hold [acc], and nothing else has changed. *)
Definition parser_lists (medications dosages : address) (h0 h : store)
  (acc : parsed) : Prop :=
  medications <> dosages /\
  nth_error h medications = Some (Strings (fst acc)) /\
  nth_error h dosages = Some (Strings (snd acc)) /\
  List.length h = List.length h0 /\
  forall a, a <> medications -> a <> dosages ->
    nth_error h a = nth_error h0 a.

(** The list of records in a store [h] that grew out of [h0]. *)
Definition record_list (analysis : address) (h0 h : store)
  (rs : list record) : Prop :=
  nth_error h analysis = Some (Records rs) /\
  List.length h = List.length h0 /\
  forall a, a <> analysis -> nth_error h a = nth_error h0 a.

(** The threshold table as the specification words it: 500 for mg, 5 for g,
    50 for ml and 100 for any other unit, whatever the case of the unit. *)
Definition threshold (unit : string) : Z :=
  let u := Py.lower unit in
  if u =? "mg" then 500%Z
  else if u =? "g" then 5%Z
  else if u =? "ml" then 50%Z
  else 100%Z.

(** The matches the parser sees, in the order it sees them: line by line,
    pattern by pattern, from left to right. *)
Definition line_matches (line : string) : list (list string) :=
  match Py.strip line with
  | EmptyString => []
  | l => flat_map (fun pattern => findall true pattern l) medication_patterns
  end.

Definition all_matches (text : string) : list (list string) :=
  flat_map line_matches (Py.split newline text).

(** The name the specification describes: the first character in upper
    case, the others as they are in the text. *)
Definition upper_first (s : string) : string :=
  match s with
  | EmptyString => EmptyString
  | String c t => String (Py.upper_char c) t
  end.

(** A text with a digit somewhere: the texts in which the number pattern
    finds something. *)
Fixpoint has_digit (s : string) : bool :=
  match s with
  | EmptyString => false
  | String c t => Py.is_digit c || has_digit t
  end.

(** ** The request handler

    [analyze_prescription] as the route of the application: the check of
    the extension, the reading of the text and the response.  What the
    handler calls outside this file is a parameter: the reading of the
    upload, the UTF-8 codec, the image library and the model that reads
    text from an image.  A call that raises gives the message of the
    exception. *)

Inductive attempt (A : Type) : Type :=
| Got (a : A)
| Failed (message : string).

Arguments Got {A} a.
Arguments Failed {A} message.

(** What the route answers: the body of the response, or the
    [HTTPException] raised. *)
Inductive reply : Type :=
| Response (filename file_type extracted_text : string)
    (analysis : list record)
| HTTPException (status_code : nat) (detail : string).

(** [file.filename.lower().split('.')[-1] if '.' in file.filename else ''] *)
Definition file_extension (filename : string) : string :=
  if Py.contains "." filename
  then last (Py.split "." (Py.lower filename)) EmptyString
  else EmptyString.

Definition allowed_extensions : list string := ["png"; "jpg"; "jpeg"; "txt"].

(** [contents.decode('latin-1')]: every byte is the character of the same
    code, so the decoding always succeeds. *)
Definition decode_latin1 (contents : list Byte.byte) : option string :=
  Some (string_of_list_byte contents).

Section Handler.

(** [contents.decode('utf-8')]; [None] for [UnicodeDecodeError]. *)
Variable decode_utf8 : list Byte.byte -> option string.

(** [Image.open(io.BytesIO(contents)).convert("RGB")] *)
Variable image : Type.
Variable open_image : list Byte.byte -> attempt image.

(** The processor, [model.generate] and [batch_decode(...)[0]]. *)
Variable read_image : image -> attempt string.

(** The text of the upload, or the exception that ends the request: an
    [HTTPException] passes through, any other exception becomes the
    status 500. *)
Definition extract_text (file_extension : string) (contents : list Byte.byte)
  : reply + string :=
  if file_extension =? "txt" then
    match decode_utf8 contents with
    | Some output_text => inr output_text
    | None =>
        match decode_latin1 contents with
        | Some output_text => inr output_text
        | None =>
            inl (HTTPException 400
                   "Unable to decode text file. Please ensure it's in UTF-8 or Latin-1 encoding.")
        end
    end
  else
    match open_image contents with
    | Failed e => inl (HTTPException 400 ("Failed to read image: " ++ e))
    | Got img =>
        match read_image img with
        | Failed e => inl (HTTPException 500 ("Error during analysis: " ++ e))
        | Got output_text => inr output_text
        end
    end.

(** The route, for the name of the upload and what [await file.read()]
    gives. *)
Definition handle (filename : string) (read : attempt (list Byte.byte))
  : reply :=
  let file_extension := file_extension filename in
  if negb (Py.mem file_extension allowed_extensions) then
    HTTPException 400
      "File must be an image (png/jpg/jpeg) or text file (txt)"
  else
    match read with
    | Failed e => HTTPException 500 ("Error during analysis: " ++ e)
    | Got contents =>
        match extract_text file_extension contents with
        | inl error => error
        | inr output_text =>
            Response filename file_extension output_text
              (analyze_prescription file_extension output_text)
        end
    end.

End Handler.

(** The dosage the parser appends for a match. *)
Definition dosage_of (m : list string) : string :=
  match m with
  | [_; dosage] => dosage
  | [_; number; unit] => number ++ " " ++ unit
  | _ => EmptyString
  end.

(** The pattern without its groups other than the first. *)
Fixpoint skeleton (r : regex) : regex :=
  match r with
  | Eps => Eps
  | Lit c => Lit c
  | Class p => Class p
  | Cat r1 r2 => Cat (skeleton r1) (skeleton r2)
  | Alt r1 r2 => Alt (skeleton r1) (skeleton r2)
  | Opt r1 => Opt (skeleton r1)
  | Star r1 => Star (skeleton r1)
  | Group n r1 => if Nat.eqb n 1 then Group 1 (skeleton r1) else skeleton r1
  end.

(** Two results of the matcher that stop at the same place with the same
    first group. *)
Definition same_result (o o' : option (string * captures)) : Prop :=
  match o, o' with
  | None, None => True
  | Some (s, cs), Some (s', cs') => s = s' /\ lookup 1 cs = lookup 1 cs'
  | _, _ => False
  end.

(** ** What a match is

    The matcher above says how [re] looks for a match; this says what a
    match of a pattern is: [sem ic r s cs s' cs'] when [r] can read the
    text between [s] and its suffix [s'], taking the captures from [cs] to
    [cs']. *)

Inductive star_sem (step : string -> captures -> string -> captures -> Prop)
  : string -> captures -> string -> captures -> Prop :=
| star_stop s cs : star_sem step s cs s cs
| star_next s cs s1 cs1 s2 cs2 :
    step s cs s1 cs1 ->
    (String.length s1 < String.length s)%nat ->
    star_sem step s1 cs1 s2 cs2 ->
    star_sem step s cs s2 cs2.

Fixpoint sem (ic : bool) (r : regex) (s : string) (cs : captures)
  (s' : string) (cs' : captures) {struct r} : Prop :=
  match r with
  | Eps => s' = s /\ cs' = cs
  | Lit c => exists x, s = String x s' /\ lit_eq ic c x = true /\ cs' = cs
  | Class p => exists x, s = String x s' /\ p x = true /\ cs' = cs
  | Cat r1 r2 =>
      exists s1 cs1, sem ic r1 s cs s1 cs1 /\ sem ic r2 s1 cs1 s' cs'
  | Alt r1 r2 => sem ic r1 s cs s' cs' \/ sem ic r2 s cs s' cs'
  | Opt r1 => sem ic r1 s cs s' cs' \/ (s' = s /\ cs' = cs)
  | Star r1 => star_sem (sem ic r1) s cs s' cs'
  | Group n r1 =>
      exists cs1, sem ic r1 s cs s' cs1 /\ cs' = (n, consumed s s') :: cs1
  end.

(** The pattern has a group numbered [n]. *)
Fixpoint binds (n : nat) (r : regex) : bool :=
  match r with
  | Eps | Lit _ | Class _ => false
  | Cat r1 r2 | Alt r1 r2 => binds n r1 || binds n r2
  | Opt r1 | Star r1 => binds n r1
  | Group i r1 => Nat.eqb i n || binds n r1
  end.

Fixpoint all_chars (p : ascii -> bool) (s : string) : bool :=
  match s with
  | EmptyString => true
  | String c t => p c && all_chars p t
  end.

(** A word, as [\w+] reads one: word characters, at least one. *)
Definition word_token (s : string) : Prop :=
  s <> EmptyString /\ all_chars Py.is_word s = true.

(** The two lists of the parser have the same length. *)
Definition aligned (acc : parsed) : Prop :=
  List.length (fst acc) = List.length (snd acc).


(** * Properties *)

(** ** The matcher finds matches *)

Lemma star_sound (step : string -> captures -> string -> captures -> Prop)
  (body : string -> captures -> cont -> option (string * captures)) :
  (forall s cs k res, body s cs k = Some res ->
     exists s1 cs1, step s cs s1 cs1 /\ k s1 cs1 = Some res) ->
  forall fuel k s cs res, star body k fuel s cs = Some res ->
  exists s1 cs1, star_sem step s cs s1 cs1 /\ k s1 cs1 = Some res.
Proof.
  intros Hbody fuel k; induction fuel as [|fuel IH]; intros s cs res H;
    cbn [star] in H.
  - exists s, cs; split; [constructor | exact H].
  - destruct (body s cs _) as [res'|] eqn:E.
    + injection H as ->.
      apply Hbody in E as (s1 & cs1 & Hstep & Hk).
      destruct (String.length s1 <? String.length s)%nat eqn:Hlt;
        [|discriminate].
      apply IH in Hk as (s2 & cs2 & Hstar & Hk).
      exists s2, cs2; split; auto.
      apply Nat.ltb_lt in Hlt; econstructor; eauto.
    + exists s, cs; split; [constructor | exact H].
Qed.

Lemma run_sound ic r : forall s cs k res,
  run ic r s cs k = Some res ->
  exists s1 cs1, sem ic r s cs s1 cs1 /\ k s1 cs1 = Some res.
Proof.
  induction r as [|c|p|r1 IH1 r2 IH2|r1 IH1 r2 IH2|r1 IH1|r1 IH1|n r1 IH1];
    intros s cs k res H; cbn [run] in H; cbn [sem].
  - eauto.
  - destruct s as [|x t]; [discriminate|].
    destruct (lit_eq ic c x) eqn:E; [|discriminate].
    exists t, cs; eauto 6.
  - destruct s as [|x t]; [discriminate|].
    destruct (p x) eqn:E; [|discriminate].
    exists t, cs; eauto 6.
  - apply IH1 in H as (s1 & cs1 & H1 & H).
    apply IH2 in H as (s2 & cs2 & H2 & H).
    exists s2, cs2; eauto 6.
  - destruct (run ic r1 s cs k) as [res'|] eqn:E.
    + injection H as ->; apply IH1 in E as (s1 & cs1 & H1 & Hk); eauto 6.
    + apply IH2 in H as (s1 & cs1 & H1 & Hk); eauto 6.
  - destruct (run ic r1 s cs k) as [res'|] eqn:E.
    + injection H as ->; apply IH1 in E as (s1 & cs1 & H1 & Hk); eauto 6.
    + exists s, cs; eauto.
  - eapply star_sound; eauto.
  - apply IH1 in H as (s1 & cs1 & H1 & Hk).
    exists s1, ((n, consumed s s1) :: cs1); eauto.
Qed.

Lemma match_at_sound ic r s s' cs :
  match_at ic r s = Some (s', cs) -> sem ic r s [] s' cs.
Proof.
  unfold match_at; intros H.
  apply run_sound in H as (s1 & cs1 & Hsem & Hk).
  unfold accept in Hk; now injection Hk as <- <-.
Qed.

Lemma search_found ic r : forall s s0 s1 cs,
  search ic r s = Some (s0, s1, cs) ->
  match_at ic r s0 = Some (s1, cs) /\
  (String.length s0 <= String.length s)%nat.
Proof.
  induction s as [|c t IH]; intros s0 s1 cs H; cbn [search] in H.
  - destruct (match_at ic r "") as [[s' cs']|] eqn:E; [|discriminate].
    injection H as <- <- <-; auto.
  - destruct (match_at ic r (String c t)) as [[s' cs']|] eqn:E.
    + injection H as <- <- <-; auto.
    + apply IH in H as [H1 H2]; split; auto; simpl; lia.
Qed.

Lemma findall_from_found fuel ic r : forall s m,
  In m (findall_from fuel ic r s) ->
  exists s0 s1 cs,
    match_at ic r s0 = Some (s1, cs) /\ m = item r (consumed s0 s1) cs.
Proof.
  induction fuel as [|fuel IH]; intros s m H; cbn [findall_from] in H;
    [destruct H|].
  destruct (search ic r s) as [[[s0 s1] cs]|] eqn:E; [|destruct H].
  apply search_found in E as [E _].
  destruct H as [<-|H]; [eauto|].
  destruct (_ <? _)%nat; [eauto|].
  destruct s0; [destruct H | eauto].
Qed.

(** *** Fuel: more of it changes nothing *)

Lemma star_ext body :
  (forall s cs k1 k2,
     (forall s' cs', k1 s' cs' = k2 s' cs') -> body s cs k1 = body s cs k2) ->
  forall fuel k1 k2 s cs,
    (forall s' cs', k1 s' cs' = k2 s' cs') ->
    star body k1 fuel s cs = star body k2 fuel s cs.
Proof.
  intros Hbody fuel; induction fuel as [|fuel IH]; intros k1 k2 s cs Hk;
    cbn [star]; [apply Hk|].
  rewrite (Hbody s cs _
             (fun s1 cs1 =>
                if (String.length s1 <? String.length s)%nat
                then star body k2 fuel s1 cs1 else None)).
  - now rewrite Hk.
  - intros s' cs'; destruct (_ <? _)%nat; auto.
Qed.

Lemma run_ext ic r : forall s cs k1 k2,
  (forall s' cs', k1 s' cs' = k2 s' cs') ->
  run ic r s cs k1 = run ic r s cs k2.
Proof.
  induction r as [|c|p|r1 IH1 r2 IH2|r1 IH1 r2 IH2|r1 IH1|r1 IH1|n r1 IH1];
    intros s cs k1 k2 Hk; cbn [run].
  - apply Hk.
  - destruct s; auto; now rewrite Hk.
  - destruct s; auto; now rewrite Hk.
  - apply IH1; intros; now apply IH2.
  - now rewrite (IH1 s cs k1 k2 Hk), (IH2 s cs k1 k2 Hk).
  - now rewrite (IH1 s cs k1 k2 Hk), Hk.
  - now apply star_ext.
  - apply IH1; intros; apply Hk.
Qed.

Lemma star_fail body :
  (forall s cs k, (forall s' cs', k s' cs' = None) -> body s cs k = None) ->
  forall fuel k s cs,
    (forall s' cs', k s' cs' = None) -> star body k fuel s cs = None.
Proof.
  intros Hbody fuel; induction fuel as [|fuel IH]; intros k s cs Hk;
    cbn [star]; [apply Hk|].
  rewrite Hbody, Hk; auto.
  intros s' cs'; destruct (_ <? _)%nat; auto.
Qed.

Lemma run_fail ic r : forall s cs k,
  (forall s' cs', k s' cs' = None) -> run ic r s cs k = None.
Proof.
  induction r as [|c|p|r1 IH1 r2 IH2|r1 IH1 r2 IH2|r1 IH1|r1 IH1|n r1 IH1];
    intros s cs k Hk; cbn [run].
  - apply Hk.
  - destruct s; auto; rewrite Hk; now destruct (lit_eq ic c a).
  - destruct s; auto; rewrite Hk; now destruct (p a).
  - apply IH1; intros; now apply IH2.
  - now rewrite IH1, IH2.
  - now rewrite IH1, Hk.
  - now apply star_fail.
  - apply IH1; intros; apply Hk.
Qed.

(** The loop of [*] with more fuel than the length of the text does what it
    does with exactly that much. *)
Lemma star_enough ic r k : forall fuel1 fuel2 s cs,
  (String.length s <= fuel1)%nat -> (String.length s <= fuel2)%nat ->
  star (run ic r) k fuel1 s cs = star (run ic r) k fuel2 s cs.
Proof.
  assert (Hlast : forall fuel s cs, String.length s = 0%nat ->
            star (run ic r) k fuel s cs = k s cs).
  { intros [|fuel] s cs Hs; cbn [star]; auto.
    rewrite run_fail; auto.
    intros s' cs'; rewrite Hs; reflexivity. }
  induction fuel1 as [|fuel1 IH]; intros fuel2 s cs H1 H2.
  - rewrite !Hlast by lia; reflexivity.
  - destruct fuel2 as [|fuel2]; [rewrite !Hlast by lia; reflexivity|].
    cbn [star].
    rewrite (run_ext ic r s cs _
               (fun s1 cs1 =>
                  if (String.length s1 <? String.length s)%nat
                  then star (run ic r) k fuel2 s1 cs1 else None)); auto.
    intros s' cs'; destruct (_ <? _)%nat eqn:E; auto.
    apply Nat.ltb_lt in E; apply IH; lia.
Qed.

(** [findall] with more fuel than it takes returns the same matches. *)
Lemma findall_from_enough ic r : forall fuel1 fuel2 s,
  (String.length s < fuel1)%nat -> (String.length s < fuel2)%nat ->
  findall_from fuel1 ic r s = findall_from fuel2 ic r s.
Proof.
  induction fuel1 as [|fuel1 IH]; intros fuel2 s H1 H2; [lia|].
  destruct fuel2 as [|fuel2]; [lia|].
  cbn [findall_from].
  destruct (search ic r s) as [[[s0 s1] cs]|] eqn:E; auto.
  apply search_found in E as [_ Hlen].
  f_equal.
  destruct (_ <? _)%nat eqn:Hlt.
  - apply Nat.ltb_lt in Hlt; apply IH; lia.
  - destruct s0 as [|c t]; auto.
    simpl in Hlen; apply IH; lia.
Qed.

(** *** What the matches of the patterns look like *)

Lemma star_sem_invariant step (P : string -> captures -> string -> captures -> Prop) :
  (forall s cs, P s cs s cs) ->
  (forall s cs s1 cs1 s2 cs2,
     step s cs s1 cs1 -> P s1 cs1 s2 cs2 -> P s cs s2 cs2) ->
  forall s cs s' cs', star_sem step s cs s' cs' -> P s cs s' cs'.
Proof.
  intros Hrefl Hstep s cs s' cs' H; induction H; eauto.
Qed.

Lemma append_assoc (a b c : string) : ((a ++ b) ++ c = a ++ (b ++ c))%string.
Proof. induction a as [|x a IH]; simpl; [reflexivity | now rewrite IH]. Qed.

(** A match only adds captures for the groups of its pattern. *)
Lemma sem_frame ic n r : forall s cs s' cs',
  sem ic r s cs s' cs' -> binds n r = false -> lookup n cs' = lookup n cs.
Proof.
  induction r as [|c|p|r1 IH1 r2 IH2|r1 IH1 r2 IH2|r1 IH1|r1 IH1|i r1 IH1];
    intros s cs s' cs' H Hb; cbn [sem binds] in *.
  - now destruct H as [_ ->].
  - now destruct H as (x & _ & _ & ->).
  - now destruct H as (x & _ & _ & ->).
  - apply orb_false_elim in Hb as [Hb1 Hb2].
    destruct H as (s1 & cs1 & H1 & H2).
    rewrite (IH2 _ _ _ _ H2 Hb2); eauto.
  - apply orb_false_elim in Hb as [Hb1 Hb2]; destruct H; eauto.
  - destruct H as [H|[_ ->]]; eauto.
  - revert s cs s' cs' H.
    apply (star_sem_invariant _ (fun _ cs _ cs' => lookup n cs' = lookup n cs));
      auto.
    intros s cs s1 cs1 s2 cs2 H1 H2; rewrite H2; eauto.
  - apply orb_false_elim in Hb as [Hb1 Hb2].
    destruct H as (cs1 & H1 & ->); cbn [lookup]; rewrite Hb1; eauto.
Qed.

(** A match reads a prefix of the text. *)
Lemma sem_prefix ic r : forall s cs s' cs',
  sem ic r s cs s' cs' -> exists w, s = w ++ s'.
Proof.
  induction r as [|c|p|r1 IH1 r2 IH2|r1 IH1 r2 IH2|r1 IH1|r1 IH1|i r1 IH1];
    intros s cs s' cs' H; cbn [sem] in *.
  - destruct H as [-> _]; now exists "".
  - destruct H as (x & -> & _); now exists (String x "").
  - destruct H as (x & -> & _); now exists (String x "").
  - destruct H as (s1 & cs1 & H1 & H2).
    apply IH1 in H1 as [w1 ->]; apply IH2 in H2 as [w2 ->].
    exists (w1 ++ w2); now rewrite append_assoc.
  - destruct H; eauto.
  - destruct H as [H|[-> _]]; eauto; now exists "".
  - revert s cs s' cs' H.
    apply (star_sem_invariant _ (fun s _ s' _ => exists w, s = w ++ s')).
    + intros; now exists "".
    + intros s cs s1 cs1 s2 cs2 H1 [w2 ->].
      apply IH1 in H1 as [w1 ->].
      exists (w1 ++ w2); now rewrite append_assoc.
  - destruct H as (cs1 & H1 & _); eauto.
Qed.

Lemma length_append a b :
  String.length (a ++ b) = (String.length a + String.length b)%nat.
Proof. induction a; simpl; auto. Qed.

Lemma substring_prefix w s : substring 0 (String.length w) (w ++ s) = w.
Proof. induction w as [|c w IH]; simpl; [now destruct s | now rewrite IH]. Qed.

Lemma consumed_append w s : consumed (w ++ s) s = w.
Proof.
  unfold consumed; rewrite length_append.
  replace (_ + _ - _)%nat with (String.length w) by lia.
  apply substring_prefix.
Qed.

Lemma all_chars_append p a b :
  all_chars p (a ++ b) = all_chars p a && all_chars p b.
Proof.
  induction a as [|c a IH]; simpl; auto; now rewrite IH, andb_assoc.
Qed.

(** [c*] and [c+] for a class [c] read characters of the class and capture
    nothing. *)
Lemma star_class ic p : forall s cs s' cs',
  star_sem (sem ic (Class p)) s cs s' cs' ->
  cs' = cs /\ exists w, s = w ++ s' /\ all_chars p w = true.
Proof.
  apply (star_sem_invariant _
           (fun s cs s' cs' =>
              cs' = cs /\ exists w, s = w ++ s' /\ all_chars p w = true)).
  - intros; split; auto; now exists "".
  - intros s cs s1 cs1 s2 cs2 (x & -> & Hx & ->) (-> & w & -> & Hw).
    split; auto; exists (String x w); simpl; now rewrite Hx, Hw.
Qed.

Lemma plus_class ic p s cs s' cs' :
  sem ic (Plus (Class p)) s cs s' cs' ->
  cs' = cs /\
  exists w, s = w ++ s' /\ w <> EmptyString /\ all_chars p w = true.
Proof.
  intros (s1 & cs1 & (x & -> & Hx & ->) & H).
  apply star_class in H as (-> & w & -> & Hw).
  split; auto; exists (String x w); simpl; rewrite Hx, Hw.
  repeat split; discriminate.
Qed.

(** The first group of a pattern that starts with [(\w+)]. *)
Lemma first_group_word ic rest s s' cs' :
  binds 1 rest = false ->
  sem ic (Cat (Group 1 (Plus word)) rest) s [] s' cs' ->
  word_token (group 1 cs').
Proof.
  intros Hb (s1 & cs1 & (cs0 & H1 & ->) & H2).
  apply plus_class in H1 as (-> & w & -> & Hne & Hw).
  unfold group; rewrite (sem_frame _ _ _ _ _ _ _ H2 Hb).
  cbn [lookup Nat.eqb]; rewrite consumed_append; now split.
Qed.

Lemma hd_item r whole cs :
  (0 < ngroups r)%nat -> hd EmptyString (item r whole cs) = group 1 cs.
Proof.
  unfold item; destruct (ngroups r); [lia | reflexivity].
Qed.

Lemma length_item r whole cs :
  (0 < ngroups r)%nat -> List.length (item r whole cs) = ngroups r.
Proof.
  unfold item; destruct (ngroups r) as [|n] eqn:E; [lia|].
  intros _; now rewrite length_map, length_seq.
Qed.


(** ** The parser keeps its two lists aligned *)

Lemma fold_left_invariant {A B : Type} (P : A -> Prop) (f : A -> B -> A) :
  (forall a b, P a -> P (f a b)) ->
  forall l a, P a -> P (fold_left f l a).
Proof.
  intros step l; induction l as [|b l IH]; intros a Ha; simpl; auto.
Qed.

Lemma add_match_aligned acc m : aligned acc -> aligned (add_match acc m).
Proof.
  unfold aligned, add_match; destruct acc as [meds dos]; simpl; intros H.
  destruct m as [|a [|b [|c [|d m]]]]; simpl; auto;
    rewrite !length_app; simpl; lia.
Qed.

Lemma add_pattern_aligned line acc p :
  aligned acc -> aligned (add_pattern line acc p).
Proof.
  unfold add_pattern; apply fold_left_invariant; intros; now apply add_match_aligned.
Qed.

Lemma add_line_aligned acc line : aligned acc -> aligned (add_line acc line).
Proof.
  unfold add_line; intros H; destruct (Py.strip line); auto.
  apply fold_left_invariant; auto; intros; now apply add_pattern_aligned.
Qed.

Lemma parse_aligned text : aligned (parse_prescription_text text).
Proof.
  unfold parse_prescription_text; apply fold_left_invariant.
  - intros; now apply add_line_aligned.
  - reflexivity.
Qed.

(** C10: the parser returns as many dosages as medications, so the guard
    [i < len(dosages)] holds at every index of the loop and the entry reads
    [dosages[i]], never the substitute ["Unknown"] of the guard. *)
Theorem parse_lists_aligned (text : string) :
  let '(medications, dosages) := parse_prescription_text text in
  List.length medications = List.length dosages /\
  forall i med, In (i, med) (enumerate medications) ->
    (i <? List.length dosages)%nat = true /\
    nth_error dosages i = Some (current_dosage dosages i).
Proof.
  pose proof (parse_aligned text) as H; unfold aligned in H.
  destruct (parse_prescription_text text) as [meds dos]; simpl in H.
  split; [exact H|]; intros i med Hin.
  unfold enumerate in Hin; apply in_combine_l in Hin; apply in_seq in Hin.
  assert (Hi : (i < List.length dos)%nat) by lia.
  unfold current_dosage.
  apply Nat.ltb_lt in Hi as Hb; rewrite Hb; split; auto.
  now apply nth_error_nth'.
Qed.

(** ** The number of records *)

Lemma length_enumerate {A : Type} (xs : list A) :
  List.length (enumerate xs) = List.length xs.
Proof.
  unfold enumerate; rewrite length_combine, length_seq; apply Nat.min_id.
Qed.

Lemma length_analyze_entries medications dosages :
  List.length (analyze_entries medications dosages) = List.length medications.
Proof.
  unfold analyze_entries; now rewrite length_map, length_enumerate.
Qed.

(** C5: the pipeline yields one record for each extracted entry, and one
    record, the substitute, when nothing was extracted: their number is
    [max(1, number of entries)]. *)
Theorem analysis_length (file_extension text : string) :
  List.length (analyze_prescription file_extension text) =
  Nat.max 1 (List.length (fst (parse_prescription_text text))).
Proof.
  unfold analyze_prescription.
  destruct (parse_prescription_text text) as [meds dos]; simpl fst.
  pose proof (length_analyze_entries meds dos) as H.
  destruct (analyze_entries meds dos) as [|r rs]; simpl in *.
  - now rewrite <- H.
  - rewrite <- H; lia.
Qed.

(** C8: when the parser extracts nothing, the analysis is the single record
    "No medications detected", to be reviewed, whose info names the kind of
    file that was uploaded. *)
Theorem analysis_without_entries (file_extension text : string) :
  fst (parse_prescription_text text) = [] ->
  analyze_prescription file_extension text =
  [ mkRecord "No medications detected" "Review Required"
      ("Please ensure the " ++ file_type file_extension
         ++ " contains clear prescription information") ].
Proof.
  unfold analyze_prescription.
  destruct (parse_prescription_text text) as [meds dos]; simpl.
  intros ->; reflexivity.
Qed.

(** The empty text is such an input. *)
Lemma analysis_without_entries_witness :
  fst (parse_prescription_text "") = [] /\
  analyze_prescription "txt" "" =
  [ mkRecord "No medications detected" "Review Required"
      "Please ensure the text file contains clear prescription information" ].
Proof.
  split; [reflexivity|].
  exact (analysis_without_entries "txt" "" eq_refl).
Defined.

(** ** Floats read from decimal literals are numbers *)

Lemma shr_1_nonneg mrs : (0 <= shr_m mrs -> 0 <= shr_m (shr_1 mrs))%Z.
Proof.
  destruct mrs as [m r s]; simpl.
  destruct m as [|p|p]; simpl; try lia; destruct p; simpl; lia.
Qed.

Lemma iter_pos_invariant {A : Type} (P : A -> Prop) (f : A -> A) :
  (forall a, P a -> P (f a)) -> forall n a, P a -> P (iter_pos f n a).
Proof.
  intros Hf n; induction n; intros a Ha; simpl; auto.
Qed.

Lemma shr_fexp_nonneg m e l :
  (0 <= m -> 0 <= shr_m (fst (shr_fexp Float.prec Float.emax m e l)))%Z.
Proof.
  intros Hm; unfold shr_fexp, shr.
  assert (H0 : (0 <= shr_m (shr_record_of_loc m l))%Z)
    by (destruct l as [|[]]; simpl; exact Hm).
  destruct (_ - e)%Z; simpl; auto.
  apply (iter_pos_invariant (fun mrs => (0 <= shr_m mrs)%Z)); auto.
  apply shr_1_nonneg.
Qed.

Lemma round_nearest_even_nonneg m l :
  (0 <= m -> 0 <= round_nearest_even m l)%Z.
Proof.
  intros Hm; unfold round_nearest_even.
  destruct l as [|[]]; try lia; destruct (Z.even m); lia.
Qed.

Lemma binary_round_aux_not_nan s m e l :
  (0 <= m)%Z -> binary_round_aux Float.prec Float.emax s m e l <> S754_nan.
Proof.
  intros Hm; unfold binary_round_aux.
  pose proof (shr_fexp_nonneg m e l Hm) as H1.
  destruct (shr_fexp Float.prec Float.emax m e l) as [mrs' e']; simpl in H1.
  pose proof (round_nearest_even_nonneg _ (loc_of_shr_record mrs') H1) as H2.
  pose proof (shr_fexp_nonneg _ e' loc_Exact H2) as H3.
  destruct (shr_fexp Float.prec Float.emax _ e' loc_Exact) as [mrs'' e''].
  simpl in H3; destruct (shr_m mrs''); try discriminate; try lia.
  destruct (e'' <=? _)%Z; discriminate.
Qed.

Lemma of_ratio_not_nan p q :
  (0 <= p -> 0 < q -> Float.of_ratio p q <> S754_nan)%Z.
Proof.
  intros Hp Hq; unfold Float.of_ratio.
  destruct p as [|p|p]; [discriminate | | lia].
  unfold SFdiv_core_binary.
  set (s := (_ - _ - _)%Z).
  set (m' := match s with Z0 => _ | Zpos _ => _ | Zneg _ => _ end).
  assert (Hm' : (0 <= m')%Z).
  { subst m'; destruct s; try lia. apply Z.shiftl_nonneg; lia. }
  pose proof (Z.div_pos m' q Hm' Hq) as Hdiv.
  unfold Z.div in Hdiv.
  destruct (Z.div_eucl m' q) as [qt r]; simpl in Hdiv.
  now apply binary_round_aux_not_nan.
Qed.

Lemma digits_value_nonneg s acc :
  (0 <= acc -> Float.all_digits s = true -> 0 <= Float.digits_value acc s)%Z.
Proof.
  revert acc; induction s as [|c t IH]; intros acc Hacc Hd; [exact Hacc|].
  cbn [Float.all_digits] in Hd; cbn [Float.digits_value].
  apply andb_prop in Hd as [Hc Ht].
  apply IH; auto.
  unfold Float.digit_value, Py.is_digit, Py.between in *.
  apply andb_prop in Hc as [H1 H2].
  apply Nat.leb_le in H1; lia.
Qed.

Lemma all_digits_app a b :
  Float.all_digits (a ++ b) = Float.all_digits a && Float.all_digits b.
Proof.
  induction a as [|c a IH]; simpl; auto.
  now rewrite IH, andb_assoc.
Qed.

Lemma is_digits_all s : Float.is_digits s = true -> Float.all_digits s = true.
Proof. destruct s; simpl; [discriminate | auto]. Qed.

Lemma py_float_not_nan s m : Float.py_float s = Return m -> m <> S754_nan.
Proof.
  unfold Float.py_float, Float.decimal_literal.
  destruct (Py.split "." s) as [|i [|f [|x l]]]; try discriminate.
  - destruct (Float.is_digits i) eqn:Hi; try discriminate.
    intros [= <-]; apply of_ratio_not_nan; [|lia].
    apply digits_value_nonneg; [lia|].
    rewrite all_digits_app, (is_digits_all _ Hi); reflexivity.
  - destruct (Float.is_digits i) eqn:Hi; simpl; try discriminate.
    destruct (Float.is_digits f) eqn:Hf; try discriminate.
    intros [= <-]; apply of_ratio_not_nan.
    + apply digits_value_nonneg; [lia|].
      now rewrite all_digits_app, (is_digits_all _ Hi), (is_digits_all _ Hf).
    + apply Z.pow_pos_nonneg; lia.
Qed.

Lemma compare_int_number x n : x <> S754_nan -> Float.compare_int x n <> None.
Proof. destruct x; simpl; intros H; try discriminate; congruence. Qed.

(** The rounding of the format is to a nearest integer. *)
Lemma round_half_even_nearest n d :
  (0 < d -> 2 * Z.abs (n - d * Float.round_half_even n d) <= d)%Z.
Proof.
  intros Hd; unfold Float.round_half_even.
  pose proof (Z.div_mod n d ltac:(lia)) as Hn.
  pose proof (Z.mod_pos_bound n d Hd) as Hr.
  destruct (Z.compare_spec (2 * (n mod d)) d) as [H|H|H];
    [destruct (Z.even (n / d))| |]; lia.
Qed.

(** The two ways of writing the threshold agree. *)
Lemma safe_threshold_table unit : safe_threshold unit = threshold unit.
Proof.
  unfold safe_threshold, threshold, Py.mem; simpl.
  destruct (Py.lower unit =? "mg") eqn:Hmg; simpl; auto.
  destruct (Py.lower unit =? "g") eqn:Hg; simpl; auto.
  rewrite orb_false_r; reflexivity.
Qed.

(** The rows of the table, in either case of the letters; "mcg" and the
    default "units" fall in the last row. *)
Lemma threshold_rows :
  threshold "mg" = 500%Z /\ threshold "MG" = 500%Z /\
  threshold "g" = 5%Z /\ threshold "G" = 5%Z /\
  threshold "ml" = 50%Z /\ threshold "Ml" = 50%Z /\
  threshold "mcg" = 100%Z /\ threshold "unit" = 100%Z /\
  threshold "units" = 100%Z.
Proof. repeat split. Qed.

(** ** The assessment of one dosage *)

Lemma number_not_here s :
  match s with
  | EmptyString => True
  | String c _ => Py.is_digit c = false
  end ->
  match_at false (Group 1 number_re) s = None.
Proof.
  destruct s as [|c t]; intros H; cbn; [reflexivity | now rewrite H].
Qed.

Lemma search_number_none s :
  has_digit s = false -> search false (Group 1 number_re) s = None.
Proof.
  induction s as [|c t IH]; intros H.
  - reflexivity.
  - cbn [has_digit] in H; apply orb_false_elim in H as [Hc Ht].
    cbn [search]; rewrite (number_not_here (String c t) Hc); auto.
Qed.

Lemma dosage_numbers_none s : has_digit s = false -> dosage_numbers s = [].
Proof.
  intros H; unfold dosage_numbers, findall; cbn [findall_from].
  now rewrite (search_number_none s H).
Qed.

(** C6: a raw dosage without any digit has no numeric substring; its record
    is to be reviewed and its info reads "Unable to parse dosage". *)
Theorem dosage_without_number (med raw : string) :
  has_digit raw = false ->
  analyze_entry Float.py_float med raw =
  mkRecord med "Review Required"
    ("Current: " ++ raw ++ ", Unable to parse dosage").
Proof.
  intros H; unfold analyze_entry, try_entry.
  now rewrite (dosage_numbers_none raw H).
Qed.

Lemma dosage_without_number_witness :
  has_digit "Unknown" = false /\
  analyze_entry Float.py_float "Aspirin" "Unknown" =
  mkRecord "Aspirin" "Review Required"
    "Current: Unknown, Unable to parse dosage".
Proof.
  split; [reflexivity|].
  exact (dosage_without_number "Aspirin" "Unknown" eq_refl).
Defined.

(** C7: whatever [float] does, the assessment of an entry returns a record
    for the medicine, with one of the two statuses and an info that starts
    with the current dosage; when the body of the [try] raises, the record
    is to be reviewed and its info reads "Unable to calculate
    recommendation". *)
Theorem entry_never_raises (to_float : string -> outcome Float.float)
  (med raw : string) :
  let r := analyze_entry to_float med raw in
  medicine r = med /\
  (status r = "Safe" \/ status r = "Review Required") /\
  (exists rest, info r = "Current: " ++ raw ++ ", " ++ rest) /\
  (forall e, try_entry to_float raw = Raise e ->
     r = mkRecord med "Review Required"
           ("Current: " ++ raw ++ ", Unable to calculate recommendation")).
Proof.
  unfold analyze_entry, try_entry.
  destruct (dosage_numbers raw) as [|first rest]; cbn.
  - repeat split; eauto; discriminate.
  - destruct (to_float first) as [number|e]; cbn.
    + repeat split; try discriminate; eauto.
      destruct (Float.le_int _ _); auto.
    + repeat split; eauto.
Qed.

Lemma entry_never_raises_witness :
  try_entry (fun _ => Raise ValueError) "5mg" = Raise ValueError /\
  analyze_entry (fun _ => Raise ValueError) "Aspirin" "5mg" =
  mkRecord "Aspirin" "Review Required"
    "Current: 5mg, Unable to calculate recommendation".
Proof.
  split; [reflexivity|].
  exact (proj2 (proj2 (proj2
    (entry_never_raises (fun _ => Raise ValueError) "Aspirin" "5mg")))
    ValueError eq_refl).
Defined.

(** C3: when a number [m] and a unit [u] are read from the dosage, the
    status is Safe exactly when [m <= threshold(u)], and Review Required
    otherwise; [m] equal to the threshold is Safe, [m] above it is to be
    reviewed. *)
Theorem status_by_threshold (med raw first : string) (rest : list string)
  (m : Float.float) :
  dosage_numbers raw = first :: rest ->
  Float.py_float first = Return m ->
  let r := analyze_entry Float.py_float med raw in
  let t := threshold (dosage_unit raw) in
  (status r = "Safe" <-> Float.le_int m t = true) /\
  (status r = "Review Required" <-> Float.le_int m t = false) /\
  (Float.compare_int m t = Some Eq -> status r = "Safe") /\
  (Float.compare_int m t = Some Gt -> status r = "Review Required").
Proof.
  intros Hn Hm; unfold analyze_entry, try_entry.
  rewrite Hn, Hm; cbn [bind status]; rewrite safe_threshold_table.
  unfold Float.le_int.
  destruct (Float.compare_int m (threshold (dosage_unit raw))) as [[]|];
    cbn; repeat split; intros; congruence || discriminate.
Qed.

Lemma status_by_threshold_witness :
  status (analyze_entry Float.py_float "Amoxicillin" "500mg") = "Safe" /\
  Float.compare_int (S754_finite false 8796093022208000 (-44))
    (threshold (dosage_unit "500mg")) = Some Eq.
Proof.
  pose proof (status_by_threshold "Amoxicillin" "500mg" "500" []
                (S754_finite false 8796093022208000 (-44))
                eq_refl eq_refl) as H.
  split; [apply H|]; reflexivity.
Defined.

(** C4: when a number [m] and a unit [u] are read from the dosage, the info
    is "Current: {raw}, Recommended: {recommended}", where the
    recommendation of a Safe dosage is the raw dosage itself and that of a
    dosage to be reviewed is [m * 0.9] with one decimal, a space and [u]. *)
Theorem info_recommendation (med raw first : string) (rest : list string)
  (m : Float.float) :
  dosage_numbers raw = first :: rest ->
  Float.py_float first = Return m ->
  let r := analyze_entry Float.py_float med raw in
  (status r = "Safe" ->
     info r = "Current: " ++ raw ++ ", Recommended: " ++ raw) /\
  (status r = "Review Required" ->
     info r = "Current: " ++ raw ++ ", Recommended: "
                ++ Float.format_1f (Float.mul m Float.f0_9)
                ++ " " ++ dosage_unit raw).
Proof.
  intros Hn Hm; unfold analyze_entry, try_entry.
  rewrite Hn, Hm; cbn [bind status info].
  pose proof (compare_int_number m (safe_threshold (dosage_unit raw))
                (py_float_not_nan _ _ Hm)) as Hc.
  unfold Float.le_int, Float.gt_int.
  destruct (Float.compare_int m (safe_threshold (dosage_unit raw))) as [[]|];
    cbn; split; intros; congruence || discriminate.
Qed.

Lemma info_recommendation_witness :
  status (analyze_entry Float.py_float "Ibuprofen" "600mg") = "Review Required" /\
  info (analyze_entry Float.py_float "Ibuprofen" "600mg") =
  "Current: 600mg, Recommended: 540.0 mg".
Proof.
  pose proof (info_recommendation "Ibuprofen" "600mg" "600" []
                (S754_finite false 5277655813324800 (-43))
                eq_refl eq_refl) as H.
  split; [reflexivity|]. exact (proj2 H eq_refl).
Defined.

(** *** The numbers read from a dosage are decimal literals *)

Lemma all_digits_all_chars s : Float.all_digits s = all_chars Py.is_digit s.
Proof. induction s as [|c s IH]; simpl; auto; now rewrite IH. Qed.

Lemma digit_not_dot c : Py.is_digit c = true -> Ascii.eqb c "." = false.
Proof.
  intros H; destruct (Ascii.eqb_spec c "."); auto; subst; discriminate.
Qed.

Lemma split_digits d :
  all_chars Py.is_digit d = true -> Py.split "." d = [d].
Proof.
  induction d as [|c d IH]; intros H; cbn [Py.split]; auto.
  cbn [all_chars] in H; apply andb_prop in H as [Hc Hd].
  now rewrite (digit_not_dot c Hc), (IH Hd).
Qed.

Lemma split_digits_dot d rest :
  all_chars Py.is_digit d = true ->
  Py.split "." (d ++ String "." rest) = d :: Py.split "." rest.
Proof.
  induction d as [|c d IH]; intros H.
  - reflexivity.
  - cbn [all_chars] in H; apply andb_prop in H as [Hc Hd].
    cbn [append Py.split]; now rewrite (digit_not_dot c Hc), (IH Hd).
Qed.

Lemma is_digits_token d :
  d <> EmptyString -> all_chars Py.is_digit d = true ->
  Float.is_digits d = true.
Proof.
  destruct d; [congruence|]; intros _ H.
  unfold Float.is_digits; now rewrite all_digits_all_chars.
Qed.

Lemma number_literal s cs s' cs' :
  sem false number_re s cs s' cs' ->
  cs' = cs /\
  exists w, s = w ++ s' /\ exists i f, Float.decimal_literal w = Some (i, f).
Proof.
  intros (s1 & cs1 & H1 & H2).
  apply plus_class in H1 as (-> & d1 & -> & Hne1 & Hd1).
  pose proof (is_digits_token d1 Hne1 Hd1) as Hi.
  destruct H2 as [(s2 & cs2 & (x & -> & Hx & ->) & H2)|[-> ->]].
  - apply plus_class in H2 as (-> & d2 & -> & Hne2 & Hd2).
    apply Ascii.eqb_eq in Hx; subst x.
    split; auto; exists (d1 ++ String "." d2); split.
    + now rewrite append_assoc.
    + exists d1, d2; unfold Float.decimal_literal.
      rewrite (split_digits_dot d1 d2 Hd1), (split_digits d2 Hd2), Hi.
      now rewrite (is_digits_token d2 Hne2 Hd2).
  - split; auto; exists d1; split; auto.
    exists d1, ""; unfold Float.decimal_literal.
    now rewrite (split_digits d1 Hd1), Hi.
Qed.

(** [float] accepts every string of [dosage_numbers]. *)
Lemma dosage_numbers_float raw tok :
  In tok (dosage_numbers raw) -> exists m, Float.py_float tok = Return m.
Proof.
  unfold dosage_numbers; intros H.
  apply in_map_iff in H as (m & <- & Hm).
  apply findall_from_found in Hm as (s0 & s1 & cs & Hmatch & ->).
  apply match_at_sound in Hmatch as (cs1 & Hsem & ->).
  apply number_literal in Hsem as (-> & w & -> & i & f & Hlit).
  rewrite hd_item by (cbn; lia).
  unfold group; cbn [lookup Nat.eqb]; rewrite consumed_append.
  unfold Float.py_float; rewrite Hlit; eauto.
Qed.

(** With the [float] of the model, the body of the [try] never raises: the
    [except] branch is never taken. *)
Lemma try_entry_returns raw :
  exists status info, try_entry Float.py_float raw = Return (status, info).
Proof.
  unfold try_entry.
  destruct (dosage_numbers raw) as [|first rest] eqn:E; [eauto|].
  destruct (dosage_numbers_float raw first) as [m Hm];
    [rewrite E; now left|].
  rewrite Hm; cbn [bind]; eauto.
Qed.

(** ** The names of the medicines *)

Lemma fst_add_match acc m :
  (List.length m = 2 \/ List.length m = 3)%nat ->
  fst (add_match acc m) = (fst acc ++ [Py.capitalize (hd EmptyString m)])%list.
Proof.
  destruct acc as [meds dos].
  destruct m as [|a [|b [|c [|d m]]]]; simpl; intros [H|H];
    try discriminate; reflexivity.
Qed.

Lemma fst_add_matches ms : forall acc,
  Forall (fun m => List.length m = 2 \/ List.length m = 3)%nat ms ->
  fst (fold_left add_match ms acc) =
  (fst acc ++ map (fun m => Py.capitalize (hd EmptyString m)) ms)%list.
Proof.
  induction ms as [|m ms IH]; intros acc H; simpl.
  - now rewrite app_nil_r.
  - inversion H as [|? ? Hm Hms]; subst.
    rewrite IH, fst_add_match, <- app_assoc by assumption; reflexivity.
Qed.

Lemma findall_from_items fuel ic r : forall s,
  (0 < ngroups r)%nat ->
  Forall (fun m => List.length m = ngroups r) (findall_from fuel ic r s).
Proof.
  induction fuel as [|fuel IH]; intros s Hr; cbn [findall_from]; auto.
  destruct (search ic r s) as [[[s0 s1] cs]|]; auto.
  constructor; [now apply length_item|].
  destruct (_ <? _)%nat; auto.
  destruct s0; auto.
Qed.

Lemma pattern_groups p :
  In p medication_patterns -> (ngroups p = 2 \/ ngroups p = 3)%nat.
Proof.
  intros [<-|[<-|[<-|[]]]]; cbn; auto.
Qed.

Lemma fst_add_patterns line ps : forall acc,
  (forall p, In p ps -> In p medication_patterns) ->
  fst (fold_left (add_pattern line) ps acc) =
  (fst acc ++ map (fun m => Py.capitalize (hd EmptyString m))
                  (flat_map (fun p => findall true p line) ps))%list.
Proof.
  induction ps as [|p ps IH]; intros acc Hps; simpl.
  - now rewrite app_nil_r.
  - rewrite IH by (intros; apply Hps; now right).
    unfold add_pattern; rewrite fst_add_matches.
    + now rewrite map_app, app_assoc.
    + pose proof (pattern_groups p (Hps p (or_introl eq_refl))) as Hg.
      assert (H0 : (0 < ngroups p)%nat) by lia.
      eapply Forall_impl; [|apply findall_from_items; exact H0].
      cbn beta; intros m ->; exact Hg.
Qed.

Lemma fst_add_line acc line :
  fst (add_line acc line) =
  (fst acc ++ map (fun m => Py.capitalize (hd EmptyString m))
                  (line_matches line))%list.
Proof.
  unfold add_line, line_matches.
  destruct (Py.strip line) as [|c l]; [now rewrite app_nil_r|].
  now apply fst_add_patterns.
Qed.

Lemma fst_add_lines lines : forall acc,
  fst (fold_left add_line lines acc) =
  (fst acc ++ map (fun m => Py.capitalize (hd EmptyString m))
                  (flat_map line_matches lines))%list.
Proof.
  induction lines as [|l lines IH]; intros acc; simpl.
  - now rewrite app_nil_r.
  - now rewrite IH, fst_add_line, map_app, app_assoc.
Qed.

Lemma pattern_shape p :
  In p medication_patterns ->
  exists rest, p = Cat (Group 1 (Plus word)) rest /\ binds 1 rest = false.
Proof.
  intros [<-|[<-|[<-|[]]]]; eexists; split; reflexivity.
Qed.

Lemma findall_pattern_word p line m :
  In p medication_patterns -> In m (findall true p line) ->
  word_token (hd EmptyString m).
Proof.
  intros Hp Hm.
  apply findall_from_found in Hm as (s0 & s1 & cs & Hmatch & ->).
  pose proof (pattern_groups p Hp) as Hg.
  rewrite hd_item by lia.
  apply match_at_sound in Hmatch.
  destruct (pattern_shape p Hp) as (rest & -> & Hb).
  eapply first_group_word; eauto.
Qed.

Lemma all_matches_words text :
  Forall (fun m => word_token (hd EmptyString m)) (all_matches text).
Proof.
  apply Forall_forall; intros m Hm.
  unfold all_matches in Hm; apply in_flat_map in Hm as (line & _ & Hm).
  unfold line_matches in Hm.
  destruct (Py.strip line) as [|c l] eqn:E; [destruct Hm|].
  apply in_flat_map in Hm as (p & Hp & Hm).
  eapply findall_pattern_word; eauto.
Qed.

(** *** The words of an ASCII text are ASCII *)

Lemma is_ascii_all_chars s : Py.is_ascii s = all_chars Py.is_ascii_char s.
Proof. induction s as [|c s IH]; cbn; auto; now rewrite IH. Qed.

Lemma all_chars_split p sep s :
  all_chars p s = true ->
  Forall (fun piece => all_chars p piece = true) (Py.split sep s).
Proof.
  induction s as [|c t IH]; intros H; cbn [Py.split].
  - repeat constructor.
  - cbn [all_chars] in H; apply andb_prop in H as [Hc Ht].
    specialize (IH Ht).
    destruct (Ascii.eqb c sep); [constructor; auto|].
    destruct (Py.split sep t) as [|piece pieces].
    + repeat constructor; cbn [all_chars]; now rewrite Hc.
    + inversion IH; subst; constructor; auto.
      cbn [all_chars]; now rewrite Hc.
Qed.

Lemma all_chars_lstrip p s :
  all_chars p s = true -> all_chars p (Py.lstrip s) = true.
Proof.
  induction s as [|c t IH]; intros H; cbn [Py.lstrip]; auto.
  destruct (Py.is_space c); auto.
  apply IH; cbn [all_chars] in H; now apply andb_prop in H.
Qed.

Lemma all_chars_rstrip p s :
  all_chars p s = true -> all_chars p (Py.rstrip s) = true.
Proof.
  induction s as [|c t IH]; intros H; cbn [Py.rstrip]; auto.
  cbn [all_chars] in H; apply andb_prop in H as [Hc Ht].
  specialize (IH Ht).
  destruct (Py.rstrip t) as [|c' t'].
  - destruct (Py.is_space c); cbn [all_chars]; auto; now rewrite Hc.
  - cbn [all_chars] in *; now rewrite Hc, IH.
Qed.

Lemma search_chars p ic r : forall s s0 s1 cs,
  all_chars p s = true -> search ic r s = Some (s0, s1, cs) ->
  all_chars p s0 = true.
Proof.
  induction s as [|c t IH]; intros s0 s1 cs Hs H; cbn [search] in H.
  - destruct (match_at ic r "") as [[s' cs']|]; [|discriminate].
    now injection H as <- <- <-.
  - destruct (match_at ic r (String c t)) as [[s' cs']|].
    + now injection H as <- <- <-.
    + cbn [all_chars] in Hs; apply andb_prop in Hs as [_ Ht]; eauto.
Qed.

Lemma findall_from_found_chars p fuel ic r : forall s m,
  all_chars p s = true ->
  In m (findall_from fuel ic r s) ->
  exists s0 s1 cs,
    all_chars p s0 = true /\
    match_at ic r s0 = Some (s1, cs) /\ m = item r (consumed s0 s1) cs.
Proof.
  induction fuel as [|fuel IH]; intros s m Hs H; cbn [findall_from] in H;
    [destruct H|].
  destruct (search ic r s) as [[[s0 s1] cs]|] eqn:E; [|destruct H].
  pose proof (search_chars p ic r _ _ _ _ Hs E) as Hs0.
  apply search_found in E as [E _].
  destruct H as [<-|H]; [now exists s0, s1, cs|].
  destruct (_ <? _)%nat.
  - apply match_at_sound, sem_prefix in E as [w ->].
    rewrite all_chars_append in Hs0; apply andb_prop in Hs0 as [_ Hs1]; eauto.
  - destruct s0 as [|c t]; [destruct H|].
    cbn [all_chars] in Hs0; apply andb_prop in Hs0 as [_ Ht]; eauto.
Qed.

Lemma first_group_chars p ic rest s s' cs' :
  all_chars p s = true ->
  binds 1 rest = false ->
  sem ic (Cat (Group 1 (Plus word)) rest) s [] s' cs' ->
  all_chars p (group 1 cs') = true.
Proof.
  intros Hs Hb (s1 & cs1 & (cs0 & H1 & ->) & H2).
  apply plus_class in H1 as (-> & w & -> & _ & _).
  unfold group; rewrite (sem_frame _ _ _ _ _ _ _ H2 Hb).
  cbn [lookup Nat.eqb]; rewrite consumed_append.
  rewrite all_chars_append in Hs; now apply andb_prop in Hs.
Qed.

Lemma all_matches_ascii text :
  Py.is_ascii text = true ->
  Forall (fun m => Py.is_ascii (hd EmptyString m) = true) (all_matches text).
Proof.
  rewrite is_ascii_all_chars; intros Ht.
  apply Forall_forall; intros m Hm; rewrite is_ascii_all_chars.
  unfold all_matches in Hm; apply in_flat_map in Hm as (line & Hline & Hm).
  pose proof (all_chars_split _ newline text Ht) as Hl.
  rewrite Forall_forall in Hl; specialize (Hl line Hline).
  assert (Hs : all_chars Py.is_ascii_char (Py.strip line) = true)
    by (unfold Py.strip; now apply all_chars_rstrip, all_chars_lstrip).
  unfold line_matches in Hm.
  destruct (Py.strip line) as [|c l] eqn:E; [destruct Hm|].
  apply in_flat_map in Hm as (p & Hp & Hm).
  destruct (findall_from_found_chars Py.is_ascii_char _ _ _ _ m Hs Hm)
    as (s0 & s1 & cs & Hs0 & Hmatch & ->).
  pose proof (pattern_groups p Hp) as Hg.
  rewrite hd_item by lia.
  apply match_at_sound in Hmatch.
  destruct (pattern_shape p Hp) as (rest & -> & Hb).
  eapply first_group_chars; eauto.
Qed.

Lemma capitalize_ascii s :
  Py.is_ascii s = true ->
  Py.capitalize s =
  match s with
  | EmptyString => EmptyString
  | String c rest => String (Py.upper_char c) (Py.lower rest)
  end.
Proof.
  destruct s as [|c rest]; cbn [Py.is_ascii Py.capitalize]; auto.
  intros H; apply andb_prop in H as [Hc _].
  unfold Py.is_ascii_char in Hc; apply Nat.ltb_lt in Hc.
  destruct (Nat.eqb_spec (Py.code c) 223); [lia | reflexivity].
Qed.

(** C2, as the code has it, for an ASCII text: every match of a pattern
    gives one name, the word of its first group (word characters, at least
    one) with the first character in upper case and all the other
    characters in lower case. *)
Theorem medicine_names (text : string) :
  Py.is_ascii text = true ->
  fst (parse_prescription_text text) =
  map (fun m =>
         match hd EmptyString m with
         | EmptyString => EmptyString
         | String c rest => String (Py.upper_char c) (Py.lower rest)
         end)
      (all_matches text) /\
  Forall (fun m => word_token (hd EmptyString m)) (all_matches text).
Proof.
  intros Ht; split; [|apply all_matches_words].
  unfold parse_prescription_text; cbv zeta; rewrite fst_add_lines.
  cbn [fst app]; apply map_ext_in; intros m Hm.
  pose proof (all_matches_ascii text Ht) as Ha.
  rewrite Forall_forall in Ha.
  apply capitalize_ascii, Ha, Hm.
Qed.

Lemma medicine_names_witness :
  Py.is_ascii "aMOX 5mg" = true /\
  fst (parse_prescription_text "aMOX 5mg") = ["Amox"; "Amox"].
Proof.
  split; [reflexivity|].
  exact (proj1 (medicine_names "aMOX 5mg" eq_refl)).
Defined.

(** The letters after the first do not pass through unchanged. *)
Lemma medicine_names_not_passed_through :
  fst (parse_prescription_text "aMOX 5mg") <>
  map (fun m => upper_first (hd EmptyString m)) (all_matches "aMOX 5mg").
Proof.
  vm_compute; discriminate.
Qed.

(** ** The scenario "Amoxicillin 500mg" *)

(** C1, as the code has it: the text "Amoxicillin 500mg" gives two records
    for Amoxicillin, both Safe, the first from the pattern that keeps the
    dosage as written and the second from the pattern that rebuilds it as
    number, space, unit. *)
Theorem amoxicillin_records (file_extension : string) :
  analyze_prescription file_extension "Amoxicillin 500mg" =
  [ mkRecord "Amoxicillin" "Safe" "Current: 500mg, Recommended: 500mg";
    mkRecord "Amoxicillin" "Safe" "Current: 500 mg, Recommended: 500 mg" ].
Proof.
  vm_compute; reflexivity.
Qed.

(** The analysis of that text is not the single record. *)
Lemma amoxicillin_not_one_record :
  analyze_prescription "txt" "Amoxicillin 500mg" <>
  [ mkRecord "Amoxicillin" "Safe" "Current: 500mg, Recommended: 500mg" ].
Proof.
  vm_compute; discriminate.
Qed.

(** ** The first and the third pattern find the same entries *)

Lemma star_same body body' k k' :
  (forall s cs cs' k1 k1',
     lookup 1 cs = lookup 1 cs' ->
     (forall s1 cs1 cs1', lookup 1 cs1 = lookup 1 cs1' ->
        same_result (k1 s1 cs1) (k1' s1 cs1')) ->
     same_result (body s cs k1) (body' s cs' k1')) ->
  (forall s cs cs', lookup 1 cs = lookup 1 cs' ->
     same_result (k s cs) (k' s cs')) ->
  forall fuel s cs cs', lookup 1 cs = lookup 1 cs' ->
  same_result (star body k fuel s cs) (star body' k' fuel s cs').
Proof.
  intros Hbody Hk fuel; induction fuel as [|fuel IH]; intros s cs cs' Hcs;
    cbn [star]; [now apply Hk|].
  match goal with
  | |- same_result (match ?a with _ => _ end) (match ?b with _ => _ end) =>
      assert (H : same_result a b)
  end.
  { apply Hbody; auto.
    intros s1 cs1 cs1' H1; destruct (_ <? _)%nat; [now apply IH | exact I]. }
  destruct (body s cs _) as [[s1 cs1]|], (body' s cs' _) as [[s1' cs1']|];
    cbn in H |- *; try contradiction; auto.
Qed.

(** The groups after the first do not change where a match ends, nor its
    first group. *)
Lemma run_skeleton ic r : forall s cs cs' k k',
  lookup 1 cs = lookup 1 cs' ->
  (forall s1 cs1 cs1', lookup 1 cs1 = lookup 1 cs1' ->
     same_result (k s1 cs1) (k' s1 cs1')) ->
  same_result (run ic r s cs k) (run ic (skeleton r) s cs' k').
Proof.
  induction r as [|c|p|r1 IH1 r2 IH2|r1 IH1 r2 IH2|r1 IH1|r1 IH1|n r1 IH1];
    intros s cs cs' k k' Hcs Hk; cbn [run skeleton].
  - now apply Hk.
  - destruct s as [|x t]; [exact I|].
    destruct (lit_eq ic c x); [now apply Hk | exact I].
  - destruct s as [|x t]; [exact I|].
    destruct (p x); [now apply Hk | exact I].
  - apply IH1; [exact Hcs|]; intros; now apply IH2.
  - pose proof (IH1 s cs cs' k k' Hcs Hk) as H1.
    destruct (run ic r1 s cs k) as [[s1 cs1]|],
             (run ic (skeleton r1) s cs' k') as [[s1' cs1']|];
      cbn in H1 |- *; try contradiction; auto.
  - pose proof (IH1 s cs cs' k k' Hcs Hk) as H1.
    destruct (run ic r1 s cs k) as [[s1 cs1]|],
             (run ic (skeleton r1) s cs' k') as [[s1' cs1']|];
      cbn in H1 |- *; try contradiction; auto.
  - apply star_same; auto.
  - destruct (Nat.eqb_spec n 1) as [->|Hn]; cbn [run].
    + apply IH1; [exact Hcs|]; intros s1 cs1 cs1' H1.
      apply Hk; cbn [lookup Nat.eqb]; reflexivity.
    + apply IH1; [exact Hcs|]; intros s1 cs1 cs1' H1.
      apply Hk; cbn [lookup].
      destruct (Nat.eqb_spec n 1); [contradiction | exact H1].
Qed.

Lemma same_result_trans o1 o2 o3 :
  same_result o1 o2 -> same_result o3 o2 -> same_result o1 o3.
Proof.
  destruct o1 as [[s1 c1]|], o2 as [[s2 c2]|], o3 as [[s3 c3]|]; cbn;
    try tauto.
  intros [-> H1] [-> H3]; split; congruence.
Qed.

Lemma match_at_same ic r r' s :
  skeleton r = skeleton r' ->
  same_result (match_at ic r s) (match_at ic r' s).
Proof.
  intros Hr; unfold match_at.
  assert (Hacc : forall s1 cs1 cs1', lookup 1 cs1 = lookup 1 cs1' ->
            same_result (accept s1 cs1) (accept s1 cs1'))
    by (intros; cbn; auto).
  eapply same_result_trans.
  - apply (run_skeleton ic r s [] [] accept accept eq_refl Hacc).
  - rewrite Hr.
    apply (run_skeleton ic r' s [] [] accept accept eq_refl Hacc).
Qed.

Lemma search_same ic r r' :
  skeleton r = skeleton r' ->
  forall s,
    match search ic r s, search ic r' s with
    | None, None => True
    | Some (s0, s1, cs), Some (s0', s1', cs') =>
        s0 = s0' /\ s1 = s1' /\ lookup 1 cs = lookup 1 cs'
    | _, _ => False
    end.
Proof.
  intros Hr; induction s as [|c t IH]; cbn [search].
  - pose proof (match_at_same ic r r' "" Hr) as H.
    destruct (match_at ic r "") as [[s1 cs]|],
             (match_at ic r' "") as [[s1' cs']|]; cbn in H |- *; tauto.
  - pose proof (match_at_same ic r r' (String c t) Hr) as H.
    destruct (match_at ic r (String c t)) as [[s1 cs]|],
             (match_at ic r' (String c t)) as [[s1' cs']|];
      cbn in H |- *; tauto.
Qed.

Lemma findall_from_same ic r r' :
  skeleton r = skeleton r' ->
  (0 < ngroups r)%nat -> (0 < ngroups r')%nat ->
  forall fuel s,
    map (hd EmptyString) (findall_from fuel ic r s) =
    map (hd EmptyString) (findall_from fuel ic r' s).
Proof.
  intros Hr Hg Hg'; induction fuel as [|fuel IH]; intros s;
    cbn [findall_from]; auto.
  pose proof (search_same ic r r' Hr s) as H.
  destruct (search ic r s) as [[[s0 s1] cs]|],
           (search ic r' s) as [[[s0' s1'] cs']|]; try contradiction; auto.
  destruct H as (<- & <- & Hcs).
  cbn [map]; rewrite !hd_item by assumption.
  unfold group at 1 2; rewrite Hcs; f_equal.
  destruct (_ <? _)%nat; auto.
  destruct s0; auto.
Qed.

(** X1: on every line, the first pattern and the third pattern find the
    same medicine names, in the same order: every entry of the first
    pattern comes a second time from the third. *)
Theorem first_and_third_pattern_agree (line : string) :
  map (fun m => Py.capitalize (hd EmptyString m))
      (findall true (nth 0 medication_patterns Eps) line) =
  map (fun m => Py.capitalize (hd EmptyString m))
      (findall true (nth 2 medication_patterns Eps) line).
Proof.
  rewrite <- !(map_map (hd EmptyString) Py.capitalize); f_equal.
  unfold findall; apply findall_from_same; cbn; auto; lia.
Qed.

(** ** Digits: where the number pattern finds something *)

Lemma star_succeeds body k fuel s cs :
  (forall s1 cs1, k s1 cs1 <> None) -> star body k fuel s cs <> None.
Proof.
  intros Hk; destruct fuel as [|fuel]; cbn [star]; [apply Hk|].
  destruct (body s cs _); [discriminate | apply Hk].
Qed.

Lemma number_here c t :
  Py.is_digit c = true ->
  match_at false (Group 1 number_re) (String c t) <> None.
Proof.
  intros Hc; unfold match_at, number_re.
  cbn [Cats Plus run digit]; rewrite Hc.
  apply star_succeeds; intros s1 cs1.
  match goal with
  | |- match ?x with _ => _ end <> None => destruct x; discriminate
  end.
Qed.

Lemma search_number_some s :
  has_digit s = true -> search false (Group 1 number_re) s <> None.
Proof.
  induction s as [|c t IH]; intros H; [discriminate|].
  cbn [has_digit] in H; cbn [search].
  destruct (Py.is_digit c) eqn:Hc.
  - pose proof (number_here c t Hc) as Hm.
    destruct (match_at false (Group 1 number_re) (String c t)) as [[s' cs]|];
      [discriminate | contradiction].
  - destruct (match_at false (Group 1 number_re) (String c t)) as [[s' cs]|];
      [discriminate | now apply IH].
Qed.

Lemma dosage_numbers_some s : has_digit s = true -> dosage_numbers s <> [].
Proof.
  intros H; unfold dosage_numbers, findall; cbn [findall_from].
  pose proof (search_number_some s H) as Hs.
  destruct (search false (Group 1 number_re) s) as [[[s0 s1] cs]|];
    [discriminate | contradiction].
Qed.

Lemma number_gets_recommendation (med raw : string) :
  has_digit raw = true ->
  exists recommended,
    info (analyze_entry Float.py_float med raw) =
    "Current: " ++ raw ++ ", Recommended: " ++ recommended.
Proof.
  intros H; unfold analyze_entry, try_entry.
  pose proof (dosage_numbers_some raw H) as Hn.
  destruct (dosage_numbers raw) as [|first rest] eqn:E; [contradiction|].
  destruct (dosage_numbers_float raw first) as [m Hm]; [rewrite E; now left|].
  rewrite Hm; cbn [bind info]; eauto.
Qed.

(** X2: a raw dosage with a digit always gets a recommendation: the info of
    its record is "Current: {raw}, Recommended: ..." and never one of the
    two "Unable to ..." messages. *)
Theorem dosage_with_number (med raw : string) :
  has_digit raw = true ->
  exists recommended,
    info (analyze_entry Float.py_float med raw) =
    "Current: " ++ raw ++ ", Recommended: " ++ recommended.
Proof.
  intros H; unfold analyze_entry, try_entry.
  pose proof (dosage_numbers_some raw H) as Hn.
  destruct (dosage_numbers raw) as [|first rest] eqn:E; [contradiction|].
  assert (Hin : In first (dosage_numbers raw)) by (rewrite E; now left).
  apply dosage_numbers_float in Hin as [m Hm].
  rewrite Hm; cbn [bind info].
  destruct (Float.gt_int m _); eexists; reflexivity.
Qed.

Lemma dosage_with_number_witness :
  has_digit "2 tablets" = true /\
  exists recommended,
    info (analyze_entry Float.py_float "Aspirin" "2 tablets") =
    "Current: 2 tablets, Recommended: " ++ recommended.
Proof.
  split; [reflexivity|].
  exact (dosage_with_number "Aspirin" "2 tablets" eq_refl).
Defined.

Lemma has_digit_append a b : has_digit (a ++ b) = has_digit a || has_digit b.
Proof.
  induction a as [|c a IH]; cbn [append has_digit]; auto.
  now rewrite IH, orb_assoc.
Qed.

Lemma has_digit_token d :
  d <> EmptyString -> all_chars Py.is_digit d = true -> has_digit d = true.
Proof.
  destruct d as [|c d]; [congruence|]; cbn; intros _ H.
  apply andb_prop in H as [-> _]; reflexivity.
Qed.

(** A match of the number pattern starts with digits. *)
Lemma number_re_starts ic s cs s' cs' :
  sem ic number_re s cs s' cs' ->
  exists d w, s = d ++ w ++ s' /\ has_digit d = true.
Proof.
  intros (s1 & cs1 & H1 & H2).
  apply plus_class in H1 as (-> & d & -> & Hne & Hd).
  assert (Hw : exists w, s1 = w ++ s').
  { destruct H2 as [H2|[-> _]]; [eapply sem_prefix; eauto | now exists ""]. }
  destruct Hw as [w ->]; exists d, w; split; auto.
  now apply has_digit_token.
Qed.

Lemma cat_starts ic r1 r2 s cs s' cs' :
  (forall s cs s' cs', sem ic r1 s cs s' cs' ->
     exists d w, s = d ++ w ++ s' /\ has_digit d = true) ->
  sem ic (Cat r1 r2) s cs s' cs' ->
  exists d w, s = d ++ w ++ s' /\ has_digit d = true.
Proof.
  intros H1 (s1 & cs1 & Hr1 & Hr2).
  apply H1 in Hr1 as (d & w & -> & Hd).
  apply sem_prefix in Hr2 as [w2 ->].
  exists d, (w ++ w2); split; auto; now rewrite append_assoc.
Qed.

Lemma consumed_starts s s' d w :
  s = d ++ w ++ s' -> has_digit d = true -> has_digit (consumed s s') = true.
Proof.
  intros -> Hd; rewrite <- append_assoc, consumed_append, has_digit_append.
  now rewrite Hd.
Qed.

Lemma has_digit_prefix w s : has_digit s = true -> has_digit (w ++ s) = true.
Proof. intros H; rewrite has_digit_append, H; apply orb_true_r. Qed.

(** Every match of a pattern has a dosage with a digit, and so has the text
    it was found in. *)
Lemma pattern_match_digit p s s' cs whole :
  In p medication_patterns -> sem true p s [] s' cs ->
  has_digit (dosage_of (item p whole cs)) = true /\ has_digit s = true.
Proof.
  intros [<-|[<-|[<-|[]]]]; unfold item;
    match goal with
    | |- context [ngroups ?r] =>
        let n := eval compute in (ngroups r) in change (ngroups r) with n
    end; cbn [seq map dosage_of Cats]; unfold group.
  - intros (s1 & cs1 & H1 & s2 & cs2 & H2 & cs3 & H3 & ->).
    apply (cat_starts _ _ _ _ _ _ _ (number_re_starts true)) in H3
      as (d & w & Hs2 & Hd).
    apply sem_prefix in H1 as [w1 ->]; apply sem_prefix in H2 as [w2 ->].
    cbn [lookup Nat.eqb].
    split; [eapply consumed_starts; eauto|].
    subst s2; rewrite !has_digit_append, Hd; now rewrite !orb_true_r.
  - intros (s1 & cs1 & H1 & s2 & cs2 & H2 & s3 & cs3 & H3 & s4 & cs4 & H4
            & cs5 & H5 & ->).
    apply (cat_starts _ _ _ _ _ _ _ (number_re_starts true)) in H5
      as (d & w & Hs4 & Hd).
    apply sem_prefix in H1 as [w1 ->]; apply sem_prefix in H2 as [w2 ->].
    apply sem_prefix in H3 as [w3 ->]; apply sem_prefix in H4 as [w4 ->].
    cbn [lookup Nat.eqb].
    split; [eapply consumed_starts; eauto|].
    subst s4; rewrite !has_digit_append, Hd; now rewrite !orb_true_r.
  - intros (s1 & cs1 & H1 & s2 & cs2 & H2 & s3 & cs3 & (cs2' & H3 & ->)
            & s4 & cs4 & H4 & cs5 & H5 & ->).
    pose proof (number_re_starts true _ _ _ _ H3) as (d & w & Hs2 & Hd).
    apply star_class in H4 as (-> & _).
    apply sem_prefix in H1 as [w1 ->]; apply sem_prefix in H2 as [w2 ->].
    cbn [lookup Nat.eqb].
    rewrite (sem_frame true 2 unit_re _ _ _ _ H5 eq_refl).
    cbn [lookup Nat.eqb]; split.
    + rewrite has_digit_append, (consumed_starts _ _ _ _ Hs2 Hd); reflexivity.
    + rewrite Hs2, !has_digit_append, Hd; now rewrite !orb_true_r.
Qed.

(** ** The dosages of the parser *)

Lemma snd_add_match acc m :
  (List.length m = 2 \/ List.length m = 3)%nat ->
  snd (add_match acc m) = (snd acc ++ [dosage_of m])%list.
Proof.
  destruct acc as [meds dos].
  destruct m as [|a [|b [|c [|d m]]]]; simpl; intros [H|H];
    try discriminate; reflexivity.
Qed.

Lemma snd_add_matches ms : forall acc,
  Forall (fun m => List.length m = 2 \/ List.length m = 3)%nat ms ->
  snd (fold_left add_match ms acc) = (snd acc ++ map dosage_of ms)%list.
Proof.
  induction ms as [|m ms IH]; intros acc H; simpl.
  - now rewrite app_nil_r.
  - inversion H as [|? ? Hm Hms]; subst.
    rewrite IH, snd_add_match, <- app_assoc by assumption; reflexivity.
Qed.

Lemma snd_add_patterns line ps : forall acc,
  (forall p, In p ps -> In p medication_patterns) ->
  snd (fold_left (add_pattern line) ps acc) =
  (snd acc ++ map dosage_of (flat_map (fun p => findall true p line) ps))%list.
Proof.
  induction ps as [|p ps IH]; intros acc Hps; simpl.
  - now rewrite app_nil_r.
  - rewrite IH by (intros; apply Hps; now right).
    unfold add_pattern; rewrite snd_add_matches.
    + now rewrite map_app, app_assoc.
    + pose proof (pattern_groups p (Hps p (or_introl eq_refl))) as Hg.
      assert (H0 : (0 < ngroups p)%nat) by lia.
      eapply Forall_impl; [|apply findall_from_items; exact H0].
      cbn beta; intros m ->; exact Hg.
Qed.

Lemma snd_add_line acc line :
  snd (add_line acc line) = (snd acc ++ map dosage_of (line_matches line))%list.
Proof.
  unfold add_line, line_matches.
  destruct (Py.strip line) as [|c l]; [now rewrite app_nil_r|].
  now apply snd_add_patterns.
Qed.

Lemma snd_add_lines lines : forall acc,
  snd (fold_left add_line lines acc) =
  (snd acc ++ map dosage_of (flat_map line_matches lines))%list.
Proof.
  induction lines as [|l lines IH]; intros acc; simpl.
  - now rewrite app_nil_r.
  - now rewrite IH, snd_add_line, map_app, app_assoc.
Qed.

Lemma parse_matches text :
  parse_prescription_text text =
  (map (fun m => Py.capitalize (hd EmptyString m)) (all_matches text),
   map dosage_of (all_matches text)).
Proof.
  unfold parse_prescription_text, all_matches; cbv zeta.
  apply injective_projections; cbn [fst snd].
  - now rewrite fst_add_lines.
  - now rewrite snd_add_lines.
Qed.

Lemma all_matches_digit text :
  Forall (fun m => has_digit (dosage_of m) = true) (all_matches text).
Proof.
  apply Forall_forall; intros m Hm.
  unfold all_matches in Hm; apply in_flat_map in Hm as (line & _ & Hm).
  unfold line_matches in Hm.
  destruct (Py.strip line) as [|c l] eqn:E; [destruct Hm|].
  apply in_flat_map in Hm as (p & Hp & Hm).
  apply findall_from_found in Hm as (s0 & s1 & cs & Hmatch & ->).
  apply match_at_sound in Hmatch.
  now apply (pattern_match_digit p s0 s1 cs _ Hp).
Qed.

(** X3: every dosage the parser returns has a digit, so every record made
    for an extracted entry carries a recommendation, "Current: {dosage},
    Recommended: ...": within the pipeline neither "Unable to parse dosage"
    nor "Unable to calculate recommendation" is ever reported. *)
Theorem extracted_entries_get_recommendation (file_extension text : string)
  (r : record) :
  fst (parse_prescription_text text) <> [] ->
  In r (analyze_prescription file_extension text) ->
  exists dosage recommended,
    In dosage (snd (parse_prescription_text text)) /\
    has_digit dosage = true /\
    info r = "Current: " ++ dosage ++ ", Recommended: " ++ recommended.
Proof.
  intros Hne Hr; unfold analyze_prescription in Hr.
  pose proof (parse_aligned text) as Hal; unfold aligned in Hal.
  pose proof (all_matches_digit text) as Hdig.
  rewrite (parse_matches text) in Hne, Hr, Hal |- *; cbn [fst snd] in *.
  set (meds := map _ (all_matches text)) in *.
  set (dos := map dosage_of (all_matches text)) in *.
  assert (Hin : In r (analyze_entries meds dos)).
  { destruct (analyze_entries meds dos) as [|r0 rs] eqn:E; [|exact Hr].
    pose proof (length_analyze_entries meds dos) as Hlen.
    rewrite E in Hlen; destruct meds; [congruence | discriminate]. }
  unfold analyze_entries in Hin.
  apply in_map_iff in Hin as ([i med] & <- & Hi).
  unfold enumerate in Hi; apply in_combine_l in Hi; apply in_seq in Hi.
  assert (Hlt : (i < List.length dos)%nat) by lia.
  unfold current_dosage; apply Nat.ltb_lt in Hlt as Hb; rewrite Hb.
  pose proof (nth_In dos EmptyString Hlt) as Hnth.
  assert (Hd : has_digit (nth i dos EmptyString) = true).
  { subst dos; apply in_map_iff in Hnth as (m & <- & Hm).
    rewrite Forall_forall in Hdig; now apply Hdig. }
  destruct (number_gets_recommendation med _ Hd) as [rec Hrec].
  exists (nth i dos EmptyString), rec; auto.
Qed.

Lemma extracted_entries_get_recommendation_witness :
  exists dosage recommended,
    In dosage (snd (parse_prescription_text "Saline 30ml")) /\
    has_digit dosage = true /\
    info (mkRecord "Saline" "Safe" "Current: 30ml, Recommended: 30ml") =
    "Current: " ++ dosage ++ ", Recommended: " ++ recommended.
Proof.
  apply (extracted_entries_get_recommendation "txt" "Saline 30ml").
  - discriminate.
  - left; reflexivity.
Defined.

(** ** Texts without a digit *)

Lemma search_pattern_none p : forall s,
  In p medication_patterns -> has_digit s = false -> search true p s = None.
Proof.
  intros s Hp; induction s as [|c t IH]; intros H; cbn [search].
  - destruct (match_at true p "") as [[s' cs]|] eqn:E; auto.
    apply match_at_sound in E.
    apply (pattern_match_digit p _ _ _ "" Hp) in E as [_ E]; discriminate.
  - destruct (match_at true p (String c t)) as [[s' cs]|] eqn:E.
    + apply match_at_sound in E.
      apply (pattern_match_digit p _ _ _ "" Hp) in E as [_ E]; congruence.
    + apply IH; cbn [has_digit] in H; now apply orb_false_elim in H.
Qed.

Lemma has_digit_lstrip s : has_digit s = false -> has_digit (Py.lstrip s) = false.
Proof.
  induction s as [|c t IH]; intros H; cbn [Py.lstrip]; auto.
  destruct (Py.is_space c); auto.
  apply IH; cbn [has_digit] in H; now apply orb_false_elim in H.
Qed.

Lemma has_digit_rstrip s : has_digit s = false -> has_digit (Py.rstrip s) = false.
Proof.
  induction s as [|c t IH]; intros H; cbn [Py.rstrip]; auto.
  cbn [has_digit] in H; apply orb_false_elim in H as [Hc Ht].
  specialize (IH Ht).
  destruct (Py.rstrip t) as [|c' t'].
  - destruct (Py.is_space c); cbn [has_digit]; auto; now rewrite Hc.
  - cbn [has_digit] in *; now rewrite Hc, IH.
Qed.

Lemma has_digit_split sep s :
  has_digit s = false ->
  Forall (fun piece => has_digit piece = false) (Py.split sep s).
Proof.
  induction s as [|c t IH]; intros H; cbn [Py.split].
  - repeat constructor.
  - cbn [has_digit] in H; apply orb_false_elim in H as [Hc Ht].
    specialize (IH Ht).
    destruct (Ascii.eqb c sep); [constructor; auto|].
    destruct (Py.split sep t) as [|piece pieces].
    + repeat constructor; cbn [has_digit]; now rewrite Hc.
    + inversion IH; subst; constructor; auto.
      cbn [has_digit]; rewrite Hc; auto.
Qed.

Lemma line_matches_none line : has_digit line = false -> line_matches line = [].
Proof.
  intros H; unfold line_matches.
  assert (Hs : has_digit (Py.strip line) = false)
    by (unfold Py.strip; now apply has_digit_rstrip, has_digit_lstrip).
  destruct (Py.strip line) as [|c l]; auto.
  assert (Hnone : forall p, In p medication_patterns ->
            findall true p (String c l) = []).
  { intros p Hp; unfold findall; cbn [findall_from].
    now rewrite (search_pattern_none p _ Hp Hs). }
  unfold medication_patterns in *; cbn [flat_map].
  rewrite !Hnone; cbn; auto.
Qed.

Lemma all_matches_none text : has_digit text = false -> all_matches text = [].
Proof.
  intros H; unfold all_matches.
  pose proof (has_digit_split newline text H) as Hl.
  induction Hl as [|l ls Hl _ IH]; cbn [flat_map]; auto.
  now rewrite (line_matches_none l Hl), IH.
Qed.

(** X4: a text without any digit has no entry: the parser returns two empty
    lists and the analysis is the single record "No medications
    detected". *)
Theorem text_without_digit (file_extension text : string) :
  has_digit text = false ->
  parse_prescription_text text = ([], []) /\
  analyze_prescription file_extension text =
  [ mkRecord "No medications detected" "Review Required"
      ("Please ensure the " ++ file_type file_extension
         ++ " contains clear prescription information") ].
Proof.
  intros H.
  assert (Hp : parse_prescription_text text = ([], []))
    by (now rewrite parse_matches, (all_matches_none text H)).
  split; [exact Hp|].
  unfold analyze_prescription; rewrite Hp; reflexivity.
Qed.

Lemma text_without_digit_witness :
  has_digit "Take Aspirin twice a day" = false /\
  parse_prescription_text "Take Aspirin twice a day" = ([], []).
Proof.
  split; [reflexivity|].
  exact (proj1 (text_without_digit "txt" "Take Aspirin twice a day" eq_refl)).
Defined.

(** ** Lines are read one by one *)

Lemma split_nonempty sep s : Py.split sep s <> [].
Proof.
  destruct s as [|c t]; cbn [Py.split]; [discriminate|].
  destruct (Ascii.eqb c sep); [discriminate|].
  destruct (Py.split sep t); discriminate.
Qed.

Lemma split_append_sep sep a b :
  Py.split sep (a ++ String sep b) = (Py.split sep a ++ Py.split sep b)%list.
Proof.
  induction a as [|c a IH]; cbn [append Py.split].
  - now rewrite Ascii.eqb_refl.
  - rewrite IH; destruct (Ascii.eqb c sep); [reflexivity|].
    pose proof (split_nonempty sep a) as Hne.
    destruct (Py.split sep a) as [|piece pieces]; [contradiction | reflexivity].
Qed.

Lemma all_matches_lines a b :
  all_matches (a ++ String newline b) = (all_matches a ++ all_matches b)%list.
Proof.
  unfold all_matches; now rewrite split_append_sep, flat_map_app.
Qed.

Lemma parse_append_line (a b : string) :
  parse_prescription_text (a ++ String newline b) =
  ((fst (parse_prescription_text a) ++ fst (parse_prescription_text b))%list,
   (snd (parse_prescription_text a) ++ snd (parse_prescription_text b))%list).
Proof.
  rewrite !parse_matches, all_matches_lines; cbn [fst snd].
  now rewrite !map_app.
Qed.

(** X5: the parser reads a text line by line: the entries of two texts
    joined by a line break are the entries of the first followed by the
    entries of the second, names and dosages alike. *)
Theorem parse_lines (a b : string) :
  parse_prescription_text (a ++ String newline b) =
  ((fst (parse_prescription_text a) ++ fst (parse_prescription_text b))%list,
   (snd (parse_prescription_text a) ++ snd (parse_prescription_text b))%list).
Proof.
  rewrite (parse_matches (a ++ String newline b)), all_matches_lines.
  rewrite !map_app, (parse_matches a), (parse_matches b); reflexivity.
Qed.

Lemma combine_append {A B : Type} (l1 l2 : list A) (m1 m2 : list B) :
  List.length l1 = List.length m1 ->
  combine (l1 ++ l2) (m1 ++ m2) = (combine l1 m1 ++ combine l2 m2)%list.
Proof.
  revert m1; induction l1 as [|x l1 IH]; intros [|y m1] H;
    try discriminate; cbn; auto.
  rewrite IH; auto.
Qed.

Lemma entries_first (m1 d1 d2 : list string) :
  (List.length m1 <= List.length d1)%nat ->
  map (fun '(i, med) =>
         analyze_entry Float.py_float med (current_dosage (d1 ++ d2) i))
      (enumerate m1) =
  analyze_entries m1 d1.
Proof.
  intros Hlen; unfold analyze_entries; apply map_ext_in; intros [i med] Hi.
  unfold enumerate in Hi; apply in_combine_l in Hi; apply in_seq in Hi.
  unfold current_dosage; rewrite length_app.
  assert (H1 : (i <? List.length d1 + List.length d2)%nat = true)
    by (apply Nat.ltb_lt; lia).
  assert (H2 : (i <? List.length d1)%nat = true) by (apply Nat.ltb_lt; lia).
  rewrite H1, H2, app_nth1 by lia; reflexivity.
Qed.

Lemma entries_second (d1 d2 : list string) : forall (m2 : list string) j,
  map (fun '(i, med) =>
         analyze_entry Float.py_float med (current_dosage (d1 ++ d2) i))
      (combine (seq (List.length d1 + j) (List.length m2)) m2) =
  map (fun '(i, med) =>
         analyze_entry Float.py_float med (current_dosage d2 i))
      (combine (seq j (List.length m2)) m2).
Proof.
  induction m2 as [|med m2 IH]; intros j; cbn [List.length seq combine map];
    auto.
  f_equal.
  - unfold current_dosage; rewrite length_app, app_nth2_plus.
    destruct (Nat.ltb_spec j (List.length d2)) as [H|H].
    + assert (H1 : (List.length d1 + j <? List.length d1 + List.length d2)%nat
                   = true) by (apply Nat.ltb_lt; lia).
      now rewrite H1.
    + assert (H1 : (List.length d1 + j <? List.length d1 + List.length d2)%nat
                   = false) by (apply Nat.ltb_ge; lia).
      now rewrite H1.
  - rewrite <- Nat.add_succ_r; apply IH.
Qed.

Lemma analyze_entries_append (m1 d1 m2 d2 : list string) :
  List.length m1 = List.length d1 ->
  analyze_entries (m1 ++ m2) (d1 ++ d2) =
  (analyze_entries m1 d1 ++ analyze_entries m2 d2)%list.
Proof.
  intros Hlen; unfold analyze_entries at 1, enumerate.
  rewrite length_app, seq_app, combine_append by (now rewrite length_seq).
  rewrite map_app; f_equal.
  - apply (entries_first m1 d1 d2); lia.
  - unfold analyze_entries, enumerate.
    rewrite <- (entries_second d1 d2 m2 0), Nat.add_0_r, Hlen; reflexivity.
Qed.

(** X6: the analysis of two texts joined by a line break, each with at
    least one entry, is the analysis of the first followed by the analysis
    of the second. *)
Theorem analysis_lines (file_extension a b : string) :
  fst (parse_prescription_text a) <> [] ->
  fst (parse_prescription_text b) <> [] ->
  analyze_prescription file_extension (a ++ String newline b) =
  (analyze_prescription file_extension a ++
   analyze_prescription file_extension b)%list.
Proof.
  intros Ha Hb; unfold analyze_prescription; rewrite parse_append_line.
  pose proof (parse_aligned a) as Hal; unfold aligned in Hal.
  destruct (parse_prescription_text a) as [m1 d1],
           (parse_prescription_text b) as [m2 d2]; cbn [fst snd] in *.
  rewrite analyze_entries_append by exact Hal.
  pose proof (length_analyze_entries m1 d1) as H1.
  pose proof (length_analyze_entries m2 d2) as H2.
  destruct (analyze_entries m1 d1) as [|r1 rs1];
    [destruct m1; [congruence | discriminate]|].
  destruct (analyze_entries m2 d2) as [|r2 rs2];
    [destruct m2; [congruence | discriminate]|].
  reflexivity.
Qed.

Lemma analysis_lines_witness :
  analyze_prescription "txt"
    ("Saline 30ml" ++ String newline "Paracetamol: 650 mg") =
  (analyze_prescription "txt" "Saline 30ml" ++
   analyze_prescription "txt" "Paracetamol: 650 mg")%list.
Proof.
  apply analysis_lines; discriminate.
Defined.

(** ** The records follow the entries *)

Lemma map_snd_combine_seq {A : Type} (l : list A) : forall k,
  map snd (combine (seq k (List.length l)) l) = l.
Proof.
  induction l as [|x l IH]; intros k; cbn; auto; now rewrite IH.
Qed.

(** X14: when the parser extracts entries, the records name the medicines it
    extracted, one record for each, in the same order. *)
Theorem analysis_medicines (file_extension text : string) :
  fst (parse_prescription_text text) <> [] ->
  map medicine (analyze_prescription file_extension text) =
  fst (parse_prescription_text text).
Proof.
  unfold analyze_prescription.
  destruct (parse_prescription_text text) as [meds dos]; cbn [fst].
  intros Hne.
  assert (H : map medicine (analyze_entries meds dos) = meds).
  { unfold analyze_entries, enumerate; rewrite map_map.
    transitivity (map snd (combine (seq 0 (List.length meds)) meds));
      [|apply map_snd_combine_seq].
    apply map_ext; intros [i med]; unfold analyze_entry.
    destruct (try_entry _ _) as [[st inf]|e]; reflexivity. }
  destruct (analyze_entries meds dos) as [|r rs]; [|exact H].
  cbn in H; congruence.
Qed.

Lemma analysis_medicines_witness :
  map medicine (analyze_prescription "txt" "Paracetamol: 650 mg") =
  ["Paracetamol"].
Proof.
  apply (analysis_medicines "txt" "Paracetamol: 650 mg"); discriminate.
Defined.

(** ** The unit read from a dosage *)

Lemma lower_append a b : Py.lower (a ++ b) = Py.lower a ++ Py.lower b.
Proof.
  unfold Py.lower; induction a as [|c a IH]; cbn; auto; now rewrite IH.
Qed.

Lemma lit_lower c x :
  lit_eq true c x = true -> Py.lower_char x = Py.lower_char c.
Proof. unfold lit_eq; apply Ascii.eqb_eq. Qed.

(** A literal text matches itself up to the case of the letters. *)
Lemma sem_str lit : forall s cs s' cs',
  sem true (Str lit) s cs s' cs' ->
  cs' = cs /\ exists w, s = w ++ s' /\ Py.lower w = Py.lower lit.
Proof.
  induction lit as [|c t IH]; intros s cs s' cs' H.
  - destruct H as [-> ->]; split; auto; now exists "".
  - destruct t as [|c' t'].
    + destruct H as (x & -> & Hx & ->); split; auto.
      exists (String x ""); split; auto.
      cbn; now rewrite (lit_lower _ _ Hx).
    + destruct H as (s1 & cs1 & (x & -> & Hx & ->) & H).
      apply IH in H as (-> & w & -> & Hw); split; auto.
      exists (String x w); split; auto.
      change (Py.lower (String x w)) with (String (Py.lower_char x) (Py.lower w)).
      now rewrite Hw, (lit_lower _ _ Hx).
Qed.

Lemma unit_re_spelling s cs s' cs' :
  sem true unit_re s cs s' cs' ->
  cs' = cs /\
  exists w, s = w ++ s' /\
    In (Py.lower w) ["mg"; "ml"; "g"; "mcg"; "unit"; "units"].
Proof.
  unfold unit_re; cbn [Alts Cats].
  intros [H|[H|[H|[H|H]]]].
  - apply sem_str in H as (-> & w & -> & Hw); split; auto.
    exists w; rewrite Hw; cbn; auto.
  - apply sem_str in H as (-> & w & -> & Hw); split; auto.
    exists w; rewrite Hw; cbn; auto.
  - apply (sem_str "g") in H as (-> & w & -> & Hw); split; auto.
    exists w; rewrite Hw; cbn; auto 6.
  - apply sem_str in H as (-> & w & -> & Hw); split; auto.
    exists w; rewrite Hw; cbn; auto 6.
  - destruct H as (s1 & cs1 & H & Hs).
    apply sem_str in H as (-> & w & -> & Hw).
    destruct Hs as [(x & -> & Hx & ->)|[-> ->]]; split; auto.
    + exists (w ++ String x ""); split; [now rewrite append_assoc|].
      rewrite lower_append, Hw; cbn; rewrite (lit_lower _ _ Hx); cbn; auto 8.
    + exists w; rewrite Hw; cbn; auto 8.
Qed.

(** X7: the unit read from a dosage is always one of mg, ml, g, mcg, unit
    and units, in some case of the letters; it is "units" when the dosage
    names none. *)
Theorem dosage_unit_spelling (raw : string) :
  In (Py.lower (dosage_unit raw)) ["mg"; "ml"; "g"; "mcg"; "unit"; "units"] /\
  (search true (Group 1 unit_re) raw = None -> dosage_unit raw = "units").
Proof.
  unfold dosage_unit.
  destruct (search true (Group 1 unit_re) raw) as [[[s0 s1] cs]|] eqn:E.
  - split; [|discriminate].
    apply search_found in E as [E _].
    apply match_at_sound in E as (cs1 & H & ->).
    apply unit_re_spelling in H as (-> & w & -> & Hw).
    unfold group; cbn [lookup Nat.eqb]; now rewrite consumed_append.
  - split; [cbn; auto 8 | reflexivity].
Qed.

(** ** The extension of the upload *)

Lemma lower_char_idempotent c :
  Py.lower_char (Py.lower_char c) = Py.lower_char c.
Proof.
  destruct c as [[|] [|] [|] [|] [|] [|] [|] [|]]; reflexivity.
Qed.

Lemma lower_char_dot c :
  Ascii.eqb (Py.lower_char c) "." = Ascii.eqb c ".".
Proof.
  destruct c as [[|] [|] [|] [|] [|] [|] [|] [|]]; reflexivity.
Qed.

Lemma lower_idempotent s : Py.lower (Py.lower s) = Py.lower s.
Proof.
  unfold Py.lower; induction s as [|c s IH]; cbn; auto.
  now rewrite lower_char_idempotent, IH.
Qed.

Lemma contains_lower s : Py.contains "." (Py.lower s) = Py.contains "." s.
Proof.
  unfold Py.lower; induction s as [|c s IH]; cbn; auto.
  now rewrite lower_char_dot, IH.
Qed.

Lemma contains_append c a b :
  Py.contains c (a ++ b) = Py.contains c a || Py.contains c b.
Proof.
  induction a as [|x a IH]; cbn; auto; now rewrite IH, orb_assoc.
Qed.

Lemma split_pieces sep s :
  Forall (fun piece => Py.contains sep piece = false) (Py.split sep s).
Proof.
  induction s as [|c t IH]; cbn [Py.split].
  - repeat constructor.
  - destruct (Ascii.eqb c sep) eqn:E; [constructor; auto|].
    destruct (Py.split sep t) as [|piece pieces].
    + repeat constructor; cbn; now rewrite E.
    + inversion IH; subst; constructor; auto.
      cbn; rewrite E; auto.
Qed.

Lemma split_lower sep s :
  Py.lower s = s -> Forall (fun piece => Py.lower piece = piece) (Py.split sep s).
Proof.
  induction s as [|c t IH]; intros H; cbn [Py.split].
  - repeat constructor.
  - unfold Py.lower in H; cbn in H; injection H as Hc Ht.
    specialize (IH Ht).
    destruct (Ascii.eqb c sep); [constructor; auto|].
    destruct (Py.split sep t) as [|piece pieces].
    + repeat constructor; unfold Py.lower; cbn; now rewrite Hc.
    + inversion IH as [|? ? Hp Hps]; subst; constructor; auto.
      unfold Py.lower in *; cbn; now rewrite Hc, Hp.
Qed.

Lemma split_without sep s :
  Py.contains sep s = false -> Py.split sep s = [s].
Proof.
  induction s as [|c t IH]; intros H; cbn [Py.split]; auto.
  cbn in H; apply orb_false_elim in H as [Hc Ht].
  now rewrite Hc, (IH Ht).
Qed.

Lemma last_in {A : Type} (l : list A) d : l <> [] -> In (last l d) l.
Proof.
  induction l as [|x [|y l] IH]; intros H; [contradiction | now left |].
  right; apply IH; discriminate.
Qed.

(** X8: the extension taken from a file name has no dot and no upper-case
    letter; it is empty for a name without a dot. *)
Theorem file_extension_shape (filename : string) :
  Py.contains "." (file_extension filename) = false /\
  Py.lower (file_extension filename) = file_extension filename /\
  (Py.contains "." filename = false -> file_extension filename = "").
Proof.
  unfold file_extension.
  destruct (Py.contains "." filename); [|repeat split; reflexivity].
  pose proof (last_in (Py.split "." (Py.lower filename)) ""
                (split_nonempty _ _)) as Hin.
  pose proof (split_pieces "." (Py.lower filename)) as H1.
  pose proof (split_lower "." (Py.lower filename) (lower_idempotent _)) as H2.
  rewrite Forall_forall in H1, H2.
  repeat split; auto; discriminate.
Qed.

(** X9: for a name made of a stem, a dot and a suffix without a dot, the
    extension is the suffix in lower case, whatever the stem. *)
Theorem file_extension_suffix (stem suffix : string) :
  Py.contains "." suffix = false ->
  file_extension (stem ++ String "." suffix) = Py.lower suffix.
Proof.
  intros H; unfold file_extension.
  rewrite contains_append; cbn [Py.contains]; rewrite Ascii.eqb_refl.
  rewrite orb_true_r, lower_append.
  change (Py.lower (String "." suffix)) with (String "."%char (Py.lower suffix)).
  rewrite split_append_sep, (split_without "." (Py.lower suffix))
    by (now rewrite contains_lower).
  apply last_last.
Qed.

Lemma file_extension_suffix_witness :
  file_extension "scan.v2.PNG" = "png".
Proof.
  exact (file_extension_suffix "scan.v2" "PNG" eq_refl).
Defined.

(** ** The request handler *)

Lemma mem_In x xs : Py.mem x xs = true <-> In x xs.
Proof.
  unfold Py.mem; rewrite existsb_exists; split.
  - intros (y & Hy & E); apply String.eqb_eq in E; now subst.
  - intros H; exists x; split; auto; apply String.eqb_refl.
Qed.

Lemma analysis_not_empty file_extension text :
  analyze_prescription file_extension text <> [].
Proof.
  unfold analyze_prescription.
  destruct (parse_prescription_text text) as [meds dos].
  destruct (analyze_entries meds dos); discriminate.
Qed.

Section HandlerProperties.

Variable decode_utf8 : list Byte.byte -> option string.
Variable image : Type.
Variable open_image : list Byte.byte -> attempt image.
Variable read_image : image -> attempt string.

(** X10: an upload whose name has no dot, or whose extension is none of
    png, jpg, jpeg and txt, is refused with the status 400, whether or not
    its contents can be read. *)
Theorem upload_refused (filename : string) (read : attempt (list Byte.byte)) :
  Py.contains "." filename = false \/
  ~ In (file_extension filename) allowed_extensions ->
  handle decode_utf8 image open_image read_image filename read =
  HTTPException 400 "File must be an image (png/jpg/jpeg) or text file (txt)".
Proof.
  intros H; unfold handle.
  assert (Hm : Py.mem (file_extension filename) allowed_extensions = false).
  { destruct H as [H|H].
    - unfold file_extension; rewrite H; reflexivity.
    - destruct (Py.mem _ _) eqn:E; auto; apply mem_In in E; contradiction. }
  now rewrite Hm.
Qed.


(** X13: an error of the handler is the refusal of the file type or an
    unreadable image, with the status 400, or a failure while reading the
    upload or the image text, with the status 500. *)
Theorem error_shape (filename : string) (read : attempt (list Byte.byte))
  (status_code : nat) (detail : string) :
  handle decode_utf8 image open_image read_image filename read = HTTPException status_code detail ->
  (status_code = 400 /\
   (detail = "File must be an image (png/jpg/jpeg) or text file (txt)" \/
    exists e, file_extension filename <> "txt" /\
              detail = "Failed to read image: " ++ e)) \/
  (status_code = 500 /\ exists e, detail = "Error during analysis: " ++ e).
Proof.
  unfold handle.
  destruct (Py.mem (file_extension filename) allowed_extensions);
    cbn [negb]; [|intros [= <- <-]; left; split; auto].
  destruct read as [contents|e];
    [|intros [= <- <-]; right; split; auto; now exists e].
  unfold extract_text, decode_latin1.
  destruct (String.eqb_spec (file_extension filename) "txt") as [Ht|Ht].
  - destruct (decode_utf8 contents); discriminate.
  - destruct (open_image contents) as [img|e].
    + destruct (read_image img) as [t|e]; [discriminate|].
      intros [= <- <-]; right; split; auto; now exists e.
    + intros [= <- <-]; left; split; auto; right; now exists e.
Qed.

End HandlerProperties.

Lemma upload_refused_witness :
  handle (fun _ => None) unit (fun _ => Got tt) (fun _ => Got "")
    "prescription" (Failed "closed") =
  HTTPException 400 "File must be an image (png/jpg/jpeg) or text file (txt)".
Proof.
  apply upload_refused; left; reflexivity.
Defined.


Lemma error_shape_witness :
  (500 = 400 /\
   ("Error during analysis: closed" =
      "File must be an image (png/jpg/jpeg) or text file (txt)" \/
    exists e, file_extension "scan.png" <> "txt" /\
              "Error during analysis: closed" = "Failed to read image: " ++ e)) \/
  (500 = 500 /\
   exists e, "Error during analysis: closed" = "Error during analysis: " ++ e).
Proof.
  exact (error_shape (fun _ => None) unit (fun _ => Got tt)
           (fun _ => Got "") "scan.png" (Failed "closed") 500
           "Error during analysis: closed" eq_refl).
Defined.

(** ** The store *)

Lemma length_update a o h : List.length (update a o h) = List.length h.
Proof.
  revert a; induction h as [|x h IH]; intros [|a]; cbn; auto.
Qed.

Lemma nth_error_update_same a o h :
  (a < List.length h)%nat -> nth_error (update a o h) a = Some o.
Proof.
  revert a; induction h as [|x h IH]; intros [|a] H; cbn in *; try lia; auto.
  apply IH; lia.
Qed.

Lemma nth_error_update_other a b o h :
  a <> b -> nth_error (update a o h) b = nth_error h b.
Proof.
  revert a b; induction h as [|x h IH]; intros [|a] [|b] H; cbn; auto;
    try congruence.
Qed.

Lemma nth_error_length {A : Type} (l : list A) a x :
  nth_error l a = Some x -> (a < List.length l)%nat.
Proof. intros H; apply nth_error_Some; congruence. Qed.

Lemma fold_left_related {A B X : Type} (R : A -> B -> Prop)
  (f : A -> X -> A) (g : B -> X -> B) :
  (forall a b x, R a b -> R (f a x) (g b x)) ->
  forall l a b, R a b -> R (fold_left f l a) (fold_left g l b).
Proof.
  intros step l; induction l as [|x l IH]; intros a b H; cbn; auto.
Qed.

Lemma append_string_medications am ad h0 h acc x :
  parser_lists am ad h0 h acc ->
  parser_lists am ad h0 (append_string am x h) ((fst acc ++ [x])%list, snd acc).
Proof.
  intros (Hne & Hm & Hd & Hlen & Hframe); unfold append_string, strings.
  rewrite Hm; repeat split; cbn [fst snd]; auto.
  - apply nth_error_update_same; eapply nth_error_length; eauto.
  - rewrite nth_error_update_other; auto.
  - now rewrite length_update.
  - intros a Ha1 Ha2; rewrite nth_error_update_other; auto.
Qed.

Lemma append_string_dosages am ad h0 h acc x :
  parser_lists am ad h0 h acc ->
  parser_lists am ad h0 (append_string ad x h) (fst acc, (snd acc ++ [x])%list).
Proof.
  intros (Hne & Hm & Hd & Hlen & Hframe); unfold append_string, strings.
  rewrite Hd; repeat split; cbn [fst snd]; auto.
  - rewrite nth_error_update_other; auto.
  - apply nth_error_update_same; eapply nth_error_length; eauto.
  - now rewrite length_update.
  - intros a Ha1 Ha2; rewrite nth_error_update_other; auto.
Qed.

Lemma add_match_in_lists am ad h0 h acc m :
  parser_lists am ad h0 h acc ->
  parser_lists am ad h0 (add_match_in am ad h m) (add_match acc m).
Proof.
  intros H; unfold add_match_in, add_match; destruct acc as [meds dos].
  destruct m as [|a [|b [|c [|d m]]]]; auto.
  - apply (append_string_dosages am ad h0 _ (_, dos)).
    now apply (append_string_medications am ad h0 h (meds, dos)).
  - apply (append_string_dosages am ad h0 _ (_, dos)).
    now apply (append_string_medications am ad h0 h (meds, dos)).
Qed.

Lemma add_line_in_lists am ad h0 h acc line :
  parser_lists am ad h0 h acc ->
  parser_lists am ad h0 (add_line_in am ad h line) (add_line acc line).
Proof.
  intros H; unfold add_line_in, add_line.
  destruct (Py.strip line) as [|c l]; auto.
  apply fold_left_related; auto.
  intros h1 acc1 p H1; unfold add_pattern_in, add_pattern.
  apply fold_left_related; auto.
  intros h2 acc2 m H2; now apply add_match_in_lists.
Qed.

Lemma nth_error_new_old (o : object) (h : store) a :
  (a < List.length h)%nat -> nth_error (h ++ [o]) a = nth_error h a.
Proof. intros H; now apply nth_error_app1. Qed.

Lemma nth_error_new (o : object) (h : store) :
  nth_error (h ++ [o]) (List.length h) = Some o.
Proof. rewrite nth_error_app2, Nat.sub_diag by lia; reflexivity. Qed.

(** The parser in a store returns the addresses of two new lists, which
    hold what the parser returns, and changes no object of the store it
    was called in. *)
Lemma parse_in_store text h :
  let '((medications, dosages), h') := parse_prescription_text_in text h in
  strings medications h' = fst (parse_prescription_text text) /\
  strings dosages h' = snd (parse_prescription_text text) /\
  medications = List.length h /\
  dosages = S (List.length h) /\
  List.length h' = (List.length h + 2)%nat /\
  forall a, (a < List.length h)%nat -> nth_error h' a = nth_error h a.
Proof.
  unfold parse_prescription_text_in, parse_prescription_text, new; cbv zeta.
  set (am := List.length h).
  set (ad := List.length (h ++ [Strings []])).
  set (h0 := ((h ++ [Strings []]) ++ [Strings []])%list).
  assert (Had : ad = S am) by (subst ad am; rewrite length_app; cbn; lia).
  assert (H0 : parser_lists am ad h0 h0 ([], [])).
  { repeat split; auto; cbn [fst snd]; subst h0.
    - lia.
    - rewrite nth_error_new_old by (subst am; rewrite length_app; cbn; lia).
      apply nth_error_new.
    - subst ad; apply nth_error_new. }
  pose proof (fold_left_related (parser_lists am ad h0) _ _
                (fun h1 acc x => add_line_in_lists am ad h0 h1 acc x)
                (Py.split newline text) h0 ([], []) H0)
    as (_ & Hm & Hd & Hlen & Hframe).
  unfold strings; rewrite Hm, Hd; repeat split; auto.
  - rewrite Hlen; subst h0; rewrite !length_app; cbn; lia.
  - intros a Ha; rewrite Hframe by (subst am; lia).
    subst h0; rewrite !nth_error_new_old; auto; rewrite ?length_app; cbn; lia.
Qed.

Lemma add_entry_in_records dos an h0 h rs i med :
  an <> dos ->
  record_list an h0 h rs ->
  record_list an h0 (add_entry_in dos an h (i, med))
    (rs ++ [analyze_entry Float.py_float med
              (current_dosage (strings dos h0) i)])%list.
Proof.
  intros Hne (Hr & Hlen & Hframe); unfold add_entry_in, append_record, records.
  rewrite Hr; unfold strings; rewrite (Hframe dos) by auto.
  repeat split.
  - apply nth_error_update_same; eapply nth_error_length; eauto.
  - now rewrite length_update.
  - intros a Ha; rewrite nth_error_update_other; auto.
Qed.

Lemma add_entries_in_records dos an h0 entries : forall h rs,
  an <> dos ->
  record_list an h0 h rs ->
  record_list an h0 (fold_left (add_entry_in dos an) entries h)
    (rs ++ map (fun '(i, med) =>
                  analyze_entry Float.py_float med
                    (current_dosage (strings dos h0) i)) entries)%list.
Proof.
  induction entries as [|[i med] entries IH]; intros h rs Hne H; cbn.
  - now rewrite app_nil_r.
  - match goal with
    | |- context [(rs ++ ?x :: ?l)%list] =>
        replace (rs ++ x :: l)%list with ((rs ++ [x]) ++ l)%list
          by (now rewrite <- app_assoc)
    end.
    apply IH; auto.
    now apply add_entry_in_records.
Qed.

(** The analysis in a store returns the address of a new list, which
    holds the records of [analyze_prescription], and changes no object of
    the store it was called in. *)
Lemma analyze_in_store file_extension text h :
  let '(analysis, h') := analyze_prescription_in file_extension text h in
  records analysis h' = analyze_prescription file_extension text /\
  (List.length h <= analysis)%nat /\
  forall a, (a < List.length h)%nat -> nth_error h' a = nth_error h a.
Proof.
  unfold analyze_prescription_in, analyze_prescription.
  pose proof (parse_in_store text h) as Hp.
  destruct (parse_prescription_text_in text h) as [[am ad] h1].
  destruct Hp as (Hm & Hd & Ham & Had & Hlen1 & Hframe1).
  destruct (parse_prescription_text text) as [meds dos]; cbn [fst snd] in *.
  unfold new; cbv zeta.
  set (an := List.length h1).
  set (h2 := (h1 ++ [Records []])%list).
  assert (Hold : forall a, (a < List.length h1)%nat ->
            nth_error h2 a = nth_error h1 a)
    by (intros; subst h2; now apply nth_error_new_old).
  assert (Hm2 : strings am h2 = meds)
    by (unfold strings in *; rewrite Hold by lia; exact Hm).
  assert (Hd2 : strings ad h2 = dos)
    by (unfold strings in *; rewrite Hold by lia; exact Hd).
  assert (H2 : record_list an h2 h2 []).
  { repeat split; auto; subst h2 an; apply nth_error_new. }
  assert (Hne : an <> ad) by (subst an; lia).
  pose proof (add_entries_in_records ad an h2 (enumerate (strings am h2))
                h2 [] Hne H2) as (Hr & Hlen3 & Hframe3).
  rewrite Hm2 in Hr, Hlen3, Hframe3 |- *; rewrite Hd2 in Hr; cbn [app] in Hr.
  fold (analyze_entries meds dos) in Hr.
  set (h3 := fold_left (add_entry_in ad an) (enumerate meds) h2) in *.
  assert (Hrs : records an h3 = analyze_entries meds dos)
    by (unfold records; now rewrite Hr).
  assert (Hframe : forall a, (a < List.length h)%nat ->
            nth_error h3 a = nth_error h a).
  { intros a Ha; rewrite Hframe3 by (subst an; lia).
    rewrite Hold by lia; now apply Hframe1. }
  rewrite Hrs; destruct (analyze_entries meds dos) as [|r rs] eqn:E.
  - repeat split; [|subst an; lia|].
    + unfold append_record, records.
      rewrite nth_error_update_same; [now rewrite Hr|].
      eapply nth_error_length; eauto.
    + intros a Ha; unfold append_record.
      rewrite nth_error_update_other by (subst an; lia); auto.
  - repeat split; auto; subst an; lia.
Qed.

(** C9: the analysis does not depend on what the store holds when it is
    called, and it changes none of the objects it finds there: called in
    any two stores, for the same extension and text, it returns lists of
    the same records, those that the text and the extension determine.  So
    a second call, in the store the first call has left, returns what the
    first call returned, and leaves the result of the first call as it
    was. *)
Theorem analysis_deterministic (file_extension text : string)
  (h h' : store) :
  let '(first, h1) := analyze_prescription_in file_extension text h in
  let '(other, h1') := analyze_prescription_in file_extension text h' in
  let '(second, h2) := analyze_prescription_in file_extension text h1 in
  records first h1 = analyze_prescription file_extension text /\
  records other h1' = records first h1 /\
  records second h2 = records first h1 /\
  records first h2 = records first h1 /\
  forall a, (a < List.length h)%nat -> nth_error h1 a = nth_error h a.
Proof.
  pose proof (analyze_in_store file_extension text h) as H1.
  pose proof (analyze_in_store file_extension text h') as H1'.
  destruct (analyze_prescription_in file_extension text h) as [first h1].
  destruct (analyze_prescription_in file_extension text h') as [other h1'].
  pose proof (analyze_in_store file_extension text h1) as H2.
  destruct (analyze_prescription_in file_extension text h1) as [second h2].
  destruct H1 as (R1 & L1 & F1), H1' as (R1' & _ & _), H2 as (R2 & L2 & F2).
  repeat split; try congruence; auto.
  unfold records in *.
  destruct (Nat.lt_ge_cases first (List.length h1)) as [Hin|Hout].
  - now rewrite F2.
  - assert (Hnone : nth_error h1 first = None) by now apply nth_error_None.
    rewrite Hnone in R1 |- *.
    pose proof (analysis_not_empty file_extension text); congruence.
Qed.
